(** * Live transcription: reconciler, realtime channel and recording controller

    Shallow embedding of [src/src/transcribe/liveTranscribeService.ts]
    ([LiveTranscribeService]), of the message decoding of the realtime
    channel ([AssemblyAiRealtimeClient] in [src/unnamed/part_004]) and of
    [startRecordingForBlock] in [src/src/main.ts].

    Strings are Stdlib [string]s (byte strings); JavaScript's [trim] and
    [toLowerCase] are modelled on the ASCII range. *)

From Stdlib Require Import String Ascii List Bool Arith Lia QArith.
Import ListNotations.
Open Scope nat_scope.
Open Scope string_scope.

(** ** JavaScript string helpers *)

Module Js.

(** Characters removed by [String.prototype.trim] (ASCII range). *)
Definition is_ws (c : ascii) : bool :=
  match nat_of_ascii c with
  | 9 | 10 | 11 | 12 | 13 | 32 => true
  | _ => false
  end.

Fixpoint trim_start (s : string) : string :=
  match s with
  | EmptyString => EmptyString
  | String c r => if is_ws c then trim_start r else s
  end.

Fixpoint rev_str (s : string) : string :=
  match s with
  | EmptyString => EmptyString
  | String c r => rev_str r ++ String c EmptyString
  end.

Definition trim_end (s : string) : string :=
  rev_str (trim_start (rev_str s)).

(** [s.trim()] *)
Definition trim (s : string) : string := trim_end (trim_start s).

(** Truthiness of a string: [""] is the only falsy string. *)
Definition truthy (s : string) : bool :=
  match s with EmptyString => false | _ => true end.

(** [a || b] on strings. *)
Definition or_str (a b : string) : string := if truthy a then a else b.

Definition lower_char (c : ascii) : ascii :=
  let n := nat_of_ascii c in
  if Nat.leb 65 n && Nat.leb n 90 then ascii_of_nat (n + 32) else c.

(** [s.toLowerCase()] *)
Fixpoint to_lower (s : string) : string :=
  match s with
  | EmptyString => EmptyString
  | String c r => String (lower_char c) (to_lower r)
  end.

Fixpoint starts_with (s pre : string) : bool :=
  match pre, s with
  | EmptyString, _ => true
  | String c p, String d r => Ascii.eqb c d && starts_with r p
  | String _ _, EmptyString => false
  end.

(** [s.includes(sub)] *)
Fixpoint includes (s sub : string) : bool :=
  starts_with s sub ||
  match s with
  | EmptyString => false
  | String _ r => includes r sub
  end.

(** [s.split("\n")]: the segments between line feeds; never empty. *)
Fixpoint split_nl (s : string) : list string :=
  match s with
  | EmptyString => [EmptyString]
  | String c r =>
      let rest := split_nl r in
      if Ascii.eqb c (ascii_of_nat 10) then EmptyString :: rest
      else match rest with
           | x :: xs => String c x :: xs
           | [] => [String c EmptyString]
           end
  end.

End Js.

(** ** Events of the realtime channel ([AssemblyAiTranscriptEvent]) *)

Inductive TranscriptEvent :=
| SessionBegin (session_id : option string)
| TranscriptUpdate (text : string) (is_final : bool)
    (end_of_turn : option bool) (formatted : option bool)
| SessionTerminated
| ErrorEv (message : string).

(** ** State of [LiveTranscribeService] *)

(** A realtime channel: its identity (one per [new AssemblyAiRealtimeClient])
    and whether its socket is open. *)
Record Chan := mkChan { chan_id : nat; chan_open : bool }.

Record Service := mkService {
  finalized : string;
  current : string;
  pendingUnformatted : string;
  running : bool;
  (** [insertFinalHandler], [insertPartialHandler], [insertPreviewHandler]
      are set ([true]) or [null] ([false]). *)
  finalHandler : bool;
  partialHandler : bool;
  previewHandler : bool;
  aai : option Chan;
  (** [unsubAai !== null]: [handleAaiEvent] is subscribed to [aai]. *)
  subscribed : bool;
  (** [mic]: the capture handle, with the chunk size and sample rate it
      was started with. *)
  mic : option (Q * Q);
  (** identity of the next channel created by [start] *)
  nextChan : nat
}.

(** Observable effects, in the order the code performs them. *)
Inductive Out :=
| OFinal (text : string)          (* insertFinalHandler(text) *)
| OPartial (text : string)        (* insertPartialHandler(text) *)
| OPreview (text : string)        (* insertPreviewHandler(text) *)
| OStatus (text : string)         (* onStatusText(text) *)
| ONotice (text : string)         (* new Notice(text) *)
| ORunning (b : bool)             (* onRunningChange(b) *)
| OChannel (id : nat) (sampleRate : Q) (formatTurns : bool)
                                  (* new AssemblyAiRealtimeClient(...) *)
| OMicStart (chunkSizeSamples sampleRate : Q)
                                  (* startMicPcm16Capture(...) *)
| OMicStop                        (* mic.stop() *)
| OSend (id : nat) (chunk : nat)  (* ws.send(pcm16) on channel id *)
| OTerminate (id : nat).          (* aai.terminate() *)

(** ** A state-and-output monad for the service's methods *)

Definition M (A : Type) := Service -> A * Service * list Out.

Definition ret {A} (a : A) : M A := fun s => (a, s, []).

Definition bind {A B} (m : M A) (k : A -> M B) : M B :=
  fun s => let '(a, s1, o1) := m s in
           let '(b, s2, o2) := k a s1 in (b, s2, app o1 o2).

Notation "x <- m ;; k" := (bind m (fun x => k))
  (at level 61, m at next level, right associativity).
Notation "m ;; k" := (bind m (fun _ => k))
  (at level 61, right associativity).

Definition get : M Service := fun s => (s, s, []).
Definition modify (f : Service -> Service) : M unit := fun s => (tt, f s, []).
Definition emit (o : Out) : M unit := fun s => (tt, s, [o]).

Definition exec {A} (m : M A) (s : Service) : Service * list Out :=
  let '(_, s', o) := m s in (s', o).

(** Field setters. *)
Definition set_finalized v s := mkService v (current s) (pendingUnformatted s)
  (running s) (finalHandler s) (partialHandler s) (previewHandler s)
  (aai s) (subscribed s) (mic s) (nextChan s).
Definition set_current v s := mkService (finalized s) v (pendingUnformatted s)
  (running s) (finalHandler s) (partialHandler s) (previewHandler s)
  (aai s) (subscribed s) (mic s) (nextChan s).
Definition set_pending v s := mkService (finalized s) (current s) v
  (running s) (finalHandler s) (partialHandler s) (previewHandler s)
  (aai s) (subscribed s) (mic s) (nextChan s).
Definition set_running v s := mkService (finalized s) (current s)
  (pendingUnformatted s) v (finalHandler s) (partialHandler s)
  (previewHandler s) (aai s) (subscribed s) (mic s) (nextChan s).
Definition set_handlers f p v s := mkService (finalized s) (current s)
  (pendingUnformatted s) (running s) f p v
  (aai s) (subscribed s) (mic s) (nextChan s).
Definition set_aai v s := mkService (finalized s) (current s)
  (pendingUnformatted s) (running s) (finalHandler s) (partialHandler s)
  (previewHandler s) v (subscribed s) (mic s) (nextChan s).
Definition set_subscribed v s := mkService (finalized s) (current s)
  (pendingUnformatted s) (running s) (finalHandler s) (partialHandler s)
  (previewHandler s) (aai s) v (mic s) (nextChan s).
Definition set_mic v s := mkService (finalized s) (current s)
  (pendingUnformatted s) (running s) (finalHandler s) (partialHandler s)
  (previewHandler s) (aai s) (subscribed s) v (nextChan s).
Definition set_nextChan v s := mkService (finalized s) (current s)
  (pendingUnformatted s) (running s) (finalHandler s) (partialHandler s)
  (previewHandler s) (aai s) (subscribed s) (mic s) v.

(** [this.insertFinalHandler?.(t)] and its siblings. *)
Definition callFinal (t : string) : M unit :=
  s <- get ;; if finalHandler s then emit (OFinal t) else ret tt.
Definition callPartial (t : string) : M unit :=
  s <- get ;; if partialHandler s then emit (OPartial t) else ret tt.
Definition callPreview (t : string) : M unit :=
  s <- get ;; if previewHandler s then emit (OPreview t) else ret tt.
Definition status (t : string) : M unit := emit (OStatus t).
Definition notice (t : string) : M unit := emit (ONotice t).

(** ** Methods of [LiveTranscribeService] *)

(** [flushPendingUnformatted()] *)
Definition flushPendingUnformatted : M unit :=
  s <- get ;;
  let fallback := Js.trim (Js.or_str (pendingUnformatted s)
                             (Js.or_str (current s) "")) in
  if negb (Js.truthy fallback) then ret tt else
  callFinal fallback ;;
  modify (fun s => set_finalized (finalized s ++ fallback ++ " ") s) ;;
  modify (set_current "") ;;
  modify (set_pending "") ;;
  callPartial "".

(** [cleanup()] *)
Definition cleanup : M unit :=
  modify (set_subscribed false) ;;
  s <- get ;;
  modify (set_handlers false (partialHandler s) (previewHandler s)) ;;
  callPartial "" ;;
  s <- get ;;
  modify (set_handlers false false (previewHandler s)) ;;
  callPreview "" ;;
  modify (set_handlers false false false) ;;
  s <- get ;;
  (match aai s with
   | Some ch => emit (OTerminate (chan_id ch))
   | None => ret tt
   end) ;;
  modify (set_aai None) ;;
  s <- get ;;
  modify (set_mic None) ;;
  (match mic s with Some _ => emit OMicStop | None => ret tt end) ;;
  status "".

(** [stop()] *)
Definition stop : M unit :=
  s <- get ;;
  if negb (running s) then ret tt else
  flushPendingUnformatted ;;
  modify (set_running false) ;;
  emit (ORunning false) ;;
  status "Stopping…" ;;
  cleanup ;;
  notice "Live transcription stopped.".

(** [handleAaiEvent(ev)] *)
Definition handleAaiEvent (ev : TranscriptEvent) : M unit :=
  match ev with
  | TranscriptUpdate text is_final end_of_turn formatted =>
      (if is_final then
         modify (fun s => set_finalized (finalized s ++ Js.trim text ++ " ") s) ;;
         modify (set_current "") ;;
         modify (set_pending "") ;;
         callFinal text ;;
         callPartial ""
       else
         modify (set_current text) ;;
         (if match end_of_turn with Some true => true | _ => false end &&
             match formatted with Some false => true | _ => false end
          then modify (set_pending text) else ret tt) ;;
         callPartial text) ;;
      s <- get ;;
      let preview := Js.trim (finalized s ++ current s) in
      status (Js.or_str preview "Listening…") ;;
      callPreview preview
  | SessionTerminated => flushPendingUnformatted
  | ErrorEv message =>
      status "Transcription error." ;;
      notice ("Transcription error: " ++ message) ;;
      if Js.includes (Js.to_lower message) "not authorized" then stop
      else ret tt
  | SessionBegin _ => ret tt
  end.

(** ** [start()] *)

(** JavaScript numbers as far as [Number.isFinite] and [> 0] see them. *)
Inductive JsNum := JFin (q : Q) | JNaN | JInf | JNegInf.

(** [Number.isFinite(x) && x > 0 ? x : d] *)
Definition sanitize (x : JsNum) (d : Q) : Q :=
  match x with
  | JFin q => if negb (Qle_bool q 0) then q else d
  | _ => d
  end.

(** The fields of [getAssemblyAiConfig()] that [start] inspects; the other
    fields are passed through unchanged to the channel. *)
Record Config := mkConfig {
  cfgSampleRate : JsNum;
  cfgChunkSizeSamples : JsNum;
  cfgFormatTurns : bool
}.

(** The optional [target] of [start]: [onFinalText] is always present;
    whether [onPartialText] and [onPreviewText] are given. *)
Record Target := mkTarget { hasPartial : bool; hasPreview : bool }.

(** [start(target)] when nothing else runs while it is suspended: each of
    its awaits settles before any other call, event or audio chunk.
    [apiKey] is the value of [getAssemblyAiApiKey()]; [connectResult] and
    [micResult] are [None] when [aai.connect()] resp.
    [startMicPcm16Capture] resolve, [Some msg] when they throw [msg]; the
    result of [getKeytermsPrompt] does not reach the service. The phases
    between the awaits, and calls that interleave with them, are modelled
    below ([startBegin], [resume], [stepW]); [start_phases] shows that this
    definition is those phases run back to back. *)
Definition start (target : option Target) (apiKey : string) (config : Config)
    (connectResult micResult : option string) : M unit :=
  s <- get ;;
  if running s then ret tt else
  let key := Js.trim apiKey in
  if negb (Js.truthy key) then
    notice "Missing AssemblyAI API key. Set it in plugin settings." else
  let sampleRate := sanitize (cfgSampleRate config) 16000 in
  let chunkSizeSamples := sanitize (cfgChunkSizeSamples config) 800 in
  modify (set_handlers true
            (match target with Some t => hasPartial t | None => false end)
            (match target with Some t => hasPreview t | None => false end)) ;;
  modify (set_finalized "") ;;
  modify (set_current "") ;;
  modify (set_running true) ;;
  emit (ORunning true) ;;
  status "Starting transcription…" ;;
  s <- get ;;
  let id := nextChan s in
  emit (OChannel id sampleRate (cfgFormatTurns config)) ;;
  modify (set_aai (Some (mkChan id false))) ;;
  modify (set_nextChan (S id)) ;;
  modify (set_subscribed true) ;;
  match connectResult with
  | Some msg =>
      status "Failed to connect." ;;
      modify (set_running false) ;;
      notice ("AssemblyAI connect failed: " ++ msg) ;;
      cleanup
  | None =>
      modify (set_aai (Some (mkChan id true))) ;;
      match micResult with
      | Some msg =>
          notice ("Microphone failed: " ++ msg) ;;
          stop
      | None =>
          emit (OMicStart chunkSizeSamples sampleRate) ;;
          modify (set_mic (Some (chunkSizeSamples, sampleRate))) ;;
          status "Listening…" ;;
          notice "Live transcription started."
      end
  end.

(** [onPcm16Chunk(chunk)]: [this.aai?.sendPcm16Chunk(chunk)], which sends
    only on an open socket. *)
Definition onPcm16Chunk (chunk : nat) : M unit :=
  s <- get ;;
  match aai s with
  | Some ch => if chan_open ch then emit (OSend (chan_id ch) chunk) else ret tt
  | None => ret tt
  end.

(** An event emitted by the channel reaches [handleAaiEvent] only while the
    service is subscribed to it. *)
Definition deliver (ev : TranscriptEvent) : M unit :=
  s <- get ;;
  if subscribed s then handleAaiEvent ev else ret tt.

(** Everything that can happen to the service. *)
Inductive Op :=
| OpStart (target : option Target) (apiKey : string) (config : Config)
    (connectResult micResult : option string)
| OpStop
| OpEvent (ev : TranscriptEvent)
| OpAudio (chunk : nat).

Definition step (op : Op) : M unit :=
  match op with
  | OpStart t k c cr mr => start t k c cr mr
  | OpStop => stop
  | OpEvent ev => deliver ev
  | OpAudio chunk => onPcm16Chunk chunk
  end.

Fixpoint run (ops : list Op) : M unit :=
  match ops with
  | [] => ret tt
  | op :: rest => step op ;; run rest
  end.

(** Processing a sequence of channel events directly with [handleAaiEvent]. *)
Fixpoint handleAll (evs : list TranscriptEvent) : M unit :=
  match evs with
  | [] => ret tt
  | ev :: rest => handleAaiEvent ev ;; handleAll rest
  end.

(** The texts passed to the commit callback ([insertFinalHandler]). *)
Fixpoint commits (o : list Out) : list string :=
  match o with
  | [] => []
  | OFinal t :: r => t :: commits r
  | _ :: r => commits r
  end.

Definition initService : Service :=
  mkService "" "" "" false false false false None false None 0.


(** ** The await points of [start()]

    [start()] suspends three times: at [await this.getKeytermsPrompt?.()]
    (before it sets [running]), at [await this.aai.connect()] and at
    [this.mic = await startMicPcm16Capture(...)]. Other calls run meanwhile,
    and on resuming [start] does not look at [running] again. A suspended
    call is a [Frame] holding the locals it resumes with; each phase below
    is the code between two await points. *)

Inductive Frame :=
(** waiting for [getKeytermsPrompt]; [sampleRate], [chunkSizeSamples]
    and [config.formatTurns] were read before the await *)
| AtKeyterms (target : option Target) (chunkSizeSamples sampleRate : Q)
    (formatTurns : bool)
(** waiting for [connect()] of the channel [id] it created *)
| AtConnect (id : nat) (chunkSizeSamples sampleRate : Q)
(** waiting for [startMicPcm16Capture] *)
| AtMic (chunkSizeSamples sampleRate : Q).

(** [start(target)] up to its first await: [Some] frame when it suspends. *)
Definition startBegin (target : option Target) (apiKey : string)
    (config : Config) : M (option Frame) :=
  s <- get ;;
  if running s then ret None else
  let key := Js.trim apiKey in
  if negb (Js.truthy key) then
    notice "Missing AssemblyAI API key. Set it in plugin settings." ;; ret None
  else
  let sampleRate := sanitize (cfgSampleRate config) 16000 in
  let chunkSizeSamples := sanitize (cfgChunkSizeSamples config) 800 in
  ret (Some (AtKeyterms target chunkSizeSamples sampleRate (cfgFormatTurns config))).

(** After [getKeytermsPrompt] settles (a rejection is caught and goes on
    the same way), up to [await this.aai.connect()]. *)
Definition afterKeyterms (target : option Target) (chunkSizeSamples sampleRate : Q)
    (formatTurns : bool) : M (option Frame) :=
  modify (set_handlers true
            (match target with Some t => hasPartial t | None => false end)
            (match target with Some t => hasPreview t | None => false end)) ;;
  modify (set_finalized "") ;;
  modify (set_current "") ;;
  modify (set_running true) ;;
  emit (ORunning true) ;;
  status "Starting transcription…" ;;
  s <- get ;;
  let id := nextChan s in
  emit (OChannel id sampleRate formatTurns) ;;
  modify (set_aai (Some (mkChan id false))) ;;
  modify (set_nextChan (S id)) ;;
  modify (set_subscribed true) ;;
  ret (Some (AtConnect id chunkSizeSamples sampleRate)).

(** The socket of channel [id] is open; this matters only while the
    channel is still [this.aai]. *)
Definition openChan (id : nat) (s : Service) : Service :=
  match aai s with
  | Some ch => if Nat.eqb (chan_id ch) id then set_aai (Some (mkChan id true)) s else s
  | None => s
  end.

(** After [connect()] of channel [id] settles ([Some msg] when it throws),
    up to [await startMicPcm16Capture(...)]. *)
Definition afterConnect (id : nat) (chunkSizeSamples sampleRate : Q)
    (result : option string) : M (option Frame) :=
  match result with
  | Some msg =>
      status "Failed to connect." ;;
      modify (set_running false) ;;
      notice ("AssemblyAI connect failed: " ++ msg) ;;
      cleanup ;;
      ret None
  | None =>
      modify (openChan id) ;;
      ret (Some (AtMic chunkSizeSamples sampleRate))
  end.

(** After [startMicPcm16Capture] settles, to the end of [start]. *)
Definition afterMic (chunkSizeSamples sampleRate : Q) (result : option string)
    : M unit :=
  match result with
  | Some msg =>
      notice ("Microphone failed: " ++ msg) ;;
      stop
  | None =>
      emit (OMicStart chunkSizeSamples sampleRate) ;;
      modify (set_mic (Some (chunkSizeSamples, sampleRate))) ;;
      status "Listening…" ;;
      notice "Live transcription started."
  end.

(** Resuming a suspended [start] when its await settles with [result]. *)
Definition resume (f : Frame) (result : option string) : M (option Frame) :=
  match f with
  | AtKeyterms target cs sr ft => afterKeyterms target cs sr ft
  | AtConnect id cs sr => afterConnect id cs sr result
  | AtMic cs sr => afterMic cs sr result ;; ret None
  end.


(** [toggle()]: [if (this.running) this.stop(); else void this.start();]
    -- [start] is called without a target and [toggle] returns at its
    first await, with [running] not yet set. *)
Definition toggle (apiKey : string) (config : Config) : M (option Frame) :=
  s <- get ;;
  if running s then stop ;; ret None else startBegin None apiKey config.

(** ** Interleaved execution

    The service together with what lives outside it: the suspended [start]
    calls, the channels whose event handlers hold [handleAaiEvent], and
    the audio captures not stopped. The service's calls on these objects
    are its outputs: [OChannel id] is [new AssemblyAiRealtimeClient(...)]
    followed at once by [onEvent] on it; [OTerminate id] is
    [this.aai.terminate()] in [cleanup], which has just called [unsubAai],
    made by that same [start] for that same channel; [OMicStart] and
    [OMicStop] start and stop a capture. *)
Record World := mkWorld {
  svc : Service;
  (** one slot per suspended call, in call order; [None] once it finished *)
  frames : list (option Frame);
  (** channels whose handler set holds [handleAaiEvent] *)
  listening : list nat;
  (** running audio captures *)
  captures : nat
}.

Definition envOut (e : list nat * nat) (o : Out) : list nat * nat :=
  let '(l, c) := e in
  match o with
  | OChannel id _ _ => (id :: l, c)
  | OTerminate id => (remove Nat.eq_dec id l, c)
  | OMicStart _ _ => (l, S c)
  | OMicStop => (l, pred c)
  | _ => (l, c)
  end.

Fixpoint set_nth {A} (i : nat) (x : A) (l : list A) : list A :=
  match l, i with
  | [], _ => []
  | _ :: r, 0 => x :: r
  | y :: r, S j => y :: set_nth j x r
  end.

(** Running one of the service's methods in the world; [place] puts the
    frame it suspends with (if any) among the others. *)
Definition runIn (m : M (option Frame))
    (place : option Frame -> list (option Frame)) (w : World) : World * list Out :=
  let '(f, s', o) := m (svc w) in
  let '(l, c) := fold_left envOut o (listening w, captures w) in
  (mkWorld s' (place f) l c, o).

Definition suspend (w : World) (f : option Frame) : list (option Frame) :=
  match f with Some _ => app (frames w) [f] | None => frames w end.

(** What can happen: a call of [start()], [toggle()] or [stop()]; the
    await of the [i]-th suspended call settling ([None]: it resolves;
    [Some msg]: it throws [msg]); channel [id] emitting an event; a
    running capture delivering a chunk. *)
Inductive Act :=
| ACall (target : option Target) (apiKey : string) (config : Config)
| AToggle (apiKey : string) (config : Config)
| AStop
| ASettle (i : nat) (result : option string)
| AEvent (id : nat) (ev : TranscriptEvent)
| AAudio (chunk : nat).

Definition stepW (a : Act) (w : World) : World * list Out :=
  match a with
  | ACall target apiKey config =>
      runIn (startBegin target apiKey config) (suspend w) w
  | AToggle apiKey config => runIn (toggle apiKey config) (suspend w) w
  | AStop => runIn (stop ;; ret None) (fun _ => frames w) w
  | ASettle i result =>
      match nth_error (frames w) i with
      | Some (Some f) =>
          runIn (resume f result) (fun f' => set_nth i f' (frames w)) w
      | _ => (w, [])
      end
  | AEvent id ev =>
      if existsb (Nat.eqb id) (listening w)
      then runIn (handleAaiEvent ev ;; ret None) (fun _ => frames w) w
      else (w, [])
  | AAudio chunk =>
      if Nat.ltb 0 (captures w)
      then runIn (onPcm16Chunk chunk ;; ret None) (fun _ => frames w) w
      else (w, [])
  end.

Fixpoint runW (acts : list Act) (w : World) : World * list Out :=
  match acts with
  | [] => (w, [])
  | a :: rest =>
      let '(w1, o1) := stepW a w in
      let '(w2, o2) := runW rest w1 in
      (w2, app o1 o2)
  end.

Definition initWorld : World := mkWorld initService [] [] 0.

(** ** Insertion into the editor ([insertFinalAtCursor], [advanceCursor]) *)

Record Cursor := mkCursor { line : nat; ch : nat }.

(** [advanceCursor(cursor, text)] *)
Definition advanceCursor (cursor : Cursor) (text : string) : Cursor :=
  let lines := Js.split_nl text in
  if Nat.eqb (length lines) 1 then
    let first := nth 0 lines "" in
    mkCursor (line cursor) (ch cursor + String.length first)
  else
    let last := nth (length lines - 1) lines "" in
    mkCursor (line cursor + length lines - 1) (String.length last).

(** The calls [insertFinalAtCursor] makes on the editor. *)
Inductive EditorCall :=
| ReplaceRange (text : string) (at_ : Cursor)
| SetCursor (c : Cursor).

(** [insertFinalAtCursor(text)]; [editor] is [Some] of the editor's cursor
    when there is an active Markdown editor ([getActiveEditor()]). *)
Definition insertFinalAtCursor (editor : option Cursor) (text : string)
    : list EditorCall :=
  match editor with
  | None => []
  | Some cursor =>
      let out := Js.trim text in
      if negb (Js.truthy out) then [] else
      let prefix := if Nat.eqb (ch cursor) 0 then "" else " " in
      let insertion := prefix ++ out ++ " " in
      [ReplaceRange insertion cursor; SetCursor (advanceCursor cursor insertion)]
  end.

(** ** Message decoding of [AssemblyAiRealtimeClient] *)

Module Channel.

Set Warnings "-register-all".

(** Values produced by [JSON.parse]. *)
Inductive JVal :=
| JNull
| JBool (b : bool)
| JNum (n : JsNum)
| JStr (s : string)
| JArr (xs : list JVal)
| JObj (fields : list (string * JVal)).

(** JavaScript truthiness ([!!v]); [None] is [undefined]. *)
Definition truthy (v : option JVal) : bool :=
  match v with
  | None | Some JNull => false
  | Some (JBool b) => b
  | Some (JNum (JFin q)) => negb (Qeq_bool q 0)
  | Some (JNum JNaN) => false
  | Some (JNum _) => true
  | Some (JStr s) => Js.truthy s
  | Some (JArr _) | Some (JObj _) => true
  end.

Fixpoint lookup_last (k : string) (fs : list (string * JVal)) : option JVal :=
  match fs with
  | [] => None
  | (k', v) :: r =>
      match lookup_last k r with
      | Some w => Some w
      | None => if String.eqb k k' then Some v else None
      end
  end.

(** [msg?.k]: only objects have the fields read here; [JSON.parse] keeps
    the last of duplicated keys. *)
Definition field (msg : JVal) (k : string) : option JVal :=
  match msg with
  | JObj fs => lookup_last k fs
  | _ => None
  end.

Definition is_str (v : option JVal) (s : string) : bool :=
  match v with Some (JStr t) => String.eqb t s | _ => false end.

(** [opts.formatTurns ?? true] *)
Definition formatTurnsOpt (o : option bool) : bool :=
  match o with Some b => b | None => true end.

(** [handleMessageString(dataStr)] for a [dataStr] that [JSON.parse]
    turns into [parsed] ([None] when it throws): the events emitted.
    A [Begin] message's [id] is kept when it is a string. *)
Definition handleMessage (formatTurns : bool) (parsed : option JVal)
    : list TranscriptEvent :=
  match parsed with
  | None => []
  | Some msg =>
      let type := field msg "type" in
      if is_str type "Begin" then
        [SessionBegin (match field msg "id" with
                       | Some (JStr i) => Some i
                       | _ => None
                       end)]
      else if is_str type "Turn" then
        let endOfTurn := truthy (field msg "end_of_turn") in
        let formatted := truthy (field msg "turn_is_formatted") in
        match field msg "transcript" with
        | Some (JStr transcript) =>
            if Nat.ltb 0 (String.length transcript) then
              let isFinal := endOfTurn && (formatted || negb formatTurns) in
              [TranscriptUpdate transcript isFinal (Some endOfTurn)
                 (Some formatted)]
            else []
        | _ => []
        end
      else if is_str type "Termination" then [SessionTerminated]
      else
        let err := if truthy (field msg "error") then field msg "error"
                   else field msg "message" in
        match err with
        | Some (JStr e) =>
            if Js.truthy (Js.trim e) then [ErrorEv (Js.trim e)] else []
        | _ => []
        end
  end.

(** The events of [ws.onclose] for a close [reason] ([event.reason]). *)
Definition onClose (reason : string) : list TranscriptEvent :=
  let r := Js.trim reason in
  app (if Js.truthy r then [ErrorEv r] else []) [SessionTerminated].

(** The events of [ws.onerror]. *)
Definition onError : list TranscriptEvent :=
  [ErrorEv "WebSocket error connecting to AssemblyAI streaming."].

End Channel.

(** ** Recording controller of the plugin ([main.ts]) *)

Module Plugin.

Inductive RecordingMode := Stream | File.

(** The part of the plugin's state that [startRecordingForBlock] reads and
    writes. [liveTranscribe] and [recordedTranscribe] are both constructed
    in [onload]. *)
Record Plugin := mkPlugin {
  live : Service;
  streamRecordingBlockId : option string;
  recRecording : bool;      (* recordedTranscribe.isRecording *)
  recTranscribing : bool;   (* recordedTranscribe.isTranscribing *)
  fileRecordingBlockId : option string
}.

(** Truthiness of a [string | null]. *)
Definition activeId (o : option string) : bool :=
  match o with Some b => Js.truthy b | None => false end.

(** [recordedTranscribe.startRecording()] with the configured key and the
    outcome of the audio capture; [Some msg] when it throws. *)
Definition recStartRecording (p : Plugin) (apiKey : string)
    (capture : option string) : option string * Plugin :=
  if recRecording p || recTranscribing p then
    (Some "Recorded transcription is already running.", p)
  else if negb (Js.truthy (Js.trim apiKey)) then
    (Some "Missing AssemblyAI API key. Set it in plugin settings.", p)
  else match capture with
  | Some e => (Some e, p)
  | None =>
      (None, mkPlugin (live p) (streamRecordingBlockId p) true
               (recTranscribing p) (fileRecordingBlockId p))
  end.

(** [startFileRecordingForBlock(opts)] *)
Definition startFileRecordingForBlock (p : Plugin) (blockId : string)
    (apiKey : string) (capture : option string) : bool * Plugin * list Out :=
  if running (live p) then
    (false, p, [ONotice "Live transcription is running. Stop it before recording audio."])
  else if (recRecording p || recTranscribing p) &&
          activeId (fileRecordingBlockId p) &&
          negb (match fileRecordingBlockId p with
                | Some a => String.eqb a blockId | None => false end) then
    (false, p, [ONotice "Another scribe block is recording."])
  else if (recRecording p || recTranscribing p) &&
          negb (activeId (fileRecordingBlockId p)) then
    (false, p, [ONotice "Recorded transcription is already running."])
  else
    let p1 := mkPlugin (live p) (streamRecordingBlockId p) (recRecording p)
                (recTranscribing p) (Some blockId) in
    match recStartRecording p1 apiKey capture with
    | (None, p2) => (recRecording p2, p2, [])
    | (Some e, p2) =>
        (false, mkPlugin (live p2) (streamRecordingBlockId p2) (recRecording p2)
                  (recTranscribing p2) None,
         [ONotice ("Recording failed: " ++ e)])
    end.

(** [startRecordingForBlock(opts)]; the live session is started with
    [start] (its inputs as in [start]) and the file session with
    [startFileRecordingForBlock]. *)
Definition startRecordingForBlock (p : Plugin) (blockId : string)
    (mode : RecordingMode) (target : Target) (apiKey : string)
    (config : Config) (connectResult micResult capture : option string)
    : bool * Plugin * list Out :=
  match mode with
  | File => startFileRecordingForBlock p blockId apiKey capture
  | Stream =>
      if recRecording p || recTranscribing p then
        (false, p, [ONotice "Recorded transcription is already running."])
      else if running (live p) && activeId (streamRecordingBlockId p) &&
              negb (match streamRecordingBlockId p with
                    | Some a => String.eqb a blockId | None => false end) then
        (false, p, [ONotice "Another scribe block is recording."])
      else if running (live p) && negb (activeId (streamRecordingBlockId p)) then
        (false, p, [ONotice "Live transcription is already running."])
      else
        let '(svc', o) :=
          exec (start (Some target) apiKey config connectResult micResult)
               (live p) in
        let blk := if running svc' then Some blockId else None in
        (running svc',
         mkPlugin svc' blk (recRecording p) (recTranscribing p)
           (fileRecordingBlockId p), o)
  end.

(** The checks [stopFileRecordingForBlock(opts)] makes before it calls
    [stopAndTranscribe]: [Some] notice when it returns [null] there, [None]
    when it goes on to stop the recording. *)
Definition stopFileRecordingCheck (p : Plugin) (blockId : string) : option string :=
  if negb (recRecording p) then Some "No recorded audio is running."
  else if activeId (fileRecordingBlockId p) &&
          negb (match fileRecordingBlockId p with
                | Some a => String.eqb a blockId | None => false end) then
    Some "Another scribe block is recording."
  else None.

End Plugin.

(** ** Basic facts *)

Lemma str_append_assoc (a b c : string) : (a ++ b) ++ c = a ++ (b ++ c).
Proof. induction a as [|x a IH]; simpl; [reflexivity | now rewrite IH]. Qed.

Lemma str_append_nil_r (a : string) : a ++ "" = a.
Proof. induction a as [|x a IH]; simpl; [reflexivity | now rewrite IH]. Qed.

Lemma exec_bind {A B} (m : M A) (k : A -> M B) s :
  exec (bind m k) s =
  let '(a, s1, o1) := m s in
  let '(s2, o2) := exec (k a) s1 in (s2, app o1 o2).
Proof.
  unfold exec, bind. destruct (m s) as [[a s1] o1].
  destruct (k a s1) as [[b s2] o2]. reflexivity.
Qed.

Lemma exec_seq {A B} (m : M A) (k : M B) s :
  exec (m ;; k) s =
  let '(s1, o1) := exec m s in
  let '(s2, o2) := exec k s1 in (s2, app o1 o2).
Proof.
  rewrite exec_bind. unfold exec. destruct (m s) as [[a s1] o1]. reflexivity.
Qed.

Lemma commits_app (o1 o2 : list Out) :
  commits (app o1 o2) = app (commits o1) (commits o2).
Proof.
  induction o1 as [|x o1 IH]; [reflexivity|]. destruct x; simpl; now rewrite ?IH.
Qed.

(** Case analysis on the conditions left after evaluating a method. *)
Ltac split_ifs :=
  repeat match goal with
  | |- context [if ?b then _ else _] =>
      lazymatch b with
      | context [if _ then _ else _] => fail
      | _ => destruct b eqn:?
      end
  | |- context [match ?o with Some _ => _ | None => _ end] =>
      lazymatch o with
      | Some _ => fail
      | None => fail
      | _ => destruct o eqn:?
      end
  end.

(** Evaluate a method of the service down to its effects. *)
Ltac run_m :=
  unfold callFinal, callPartial, callPreview, status, notice in *;
  unfold exec, bind, ret, get, modify, emit in *;
  cbn -[Js.trim Js.truthy] in *.

Lemma trim_empty : Js.trim "" = "".
Proof. reflexivity. Qed.
Lemma truthy_empty : Js.truthy "" = false.
Proof. reflexivity. Qed.

(** Evaluate, then split on every condition that does not compute. *)
Ltac crunch :=
  run_m;
  repeat (rewrite ?trim_empty, ?truthy_empty in *; cbn -[Js.trim Js.truthy] in *;
          split_ifs; cbn -[Js.trim Js.truthy] in *; try discriminate;
          repeat match goal with
                 | H : Some _ = Some _ |- _ => injection H as H
                 end).

(** The texts of the final updates of an event sequence, in order. *)
Fixpoint finalTexts (evs : list TranscriptEvent) : list string :=
  match evs with
  | [] => []
  | TranscriptUpdate t true _ _ :: r => t :: finalTexts r
  | _ :: r => finalTexts r
  end.

Definition isUpdate (ev : TranscriptEvent) : bool :=
  match ev with TranscriptUpdate _ _ _ _ => true | _ => false end.

Lemma update_commits (s : Service) text f eot fm :
  finalHandler s = true ->
  finalHandler (fst (exec (handleAaiEvent (TranscriptUpdate text f eot fm)) s)) = true /\
  commits (snd (exec (handleAaiEvent (TranscriptUpdate text f eot fm)) s)) =
    (if f then [text] else []).
Proof.
  intros Hf. destruct s; simpl in Hf; subst.
  destruct f, eot as [[|]|], fm as [[|]|], partialHandler0, previewHandler0;
    cbn; auto.
Qed.

Lemma updates_commits (evs : list TranscriptEvent) (s : Service) :
  finalHandler s = true -> forallb isUpdate evs = true ->
  commits (snd (exec (handleAll evs) s)) = finalTexts evs.
Proof.
  revert s. induction evs as [|ev evs IH]; intros s Hf Hu; [reflexivity|].
  simpl in Hu. apply andb_prop in Hu as [Hev Hu].
  destruct ev as [|text f eot fm| |]; try discriminate.
  cbn [handleAll]. rewrite exec_seq.
  destruct (update_commits s text f eot fm Hf) as [Hf' Hc].
  destruct (exec (handleAaiEvent (TranscriptUpdate text f eot fm)) s) as [s1 o1].
  simpl in Hf', Hc. specialize (IH s1 Hf' Hu).
  destruct (exec (handleAll evs) s1) as [s2 o2]. simpl in IH |- *.
  rewrite commits_app, Hc, IH. destruct f; reflexivity.
Qed.

(** ** Claims about the reconciler *)

(** C1: an [Update] with [isFinal = true] appends [text.trim() + " "] to
    [finalized], clears [current] and [pendingUnformatted], calls the commit
    callback once with the raw text and then the partial callback with [""]
    (when one is installed: [insertPartialHandler?.("")]), followed by the
    status and preview of the new text; over any sequence of updates the
    commit callback fires once per final update, in arrival order. Only a
    commit callback is assumed, as in every session the plugin starts. *)
Theorem final_update_commits_once (s : Service) (text : string)
    (eot fm : option bool) (evs : list TranscriptEvent) :
  finalHandler s = true ->
  forallb isUpdate evs = true ->
  (let '(s', o) := exec (handleAaiEvent (TranscriptUpdate text true eot fm)) s in
   let preview := Js.trim (finalized s ++ Js.trim text ++ " ") in
   finalized s' = finalized s ++ Js.trim text ++ " " /\
   current s' = "" /\ pendingUnformatted s' = "" /\
   o = app (OFinal text :: (if partialHandler s then [OPartial ""] else []))
           (OStatus (Js.or_str preview "Listening…") ::
            (if previewHandler s then [OPreview preview] else [])) /\
   commits o = [text]) /\
  commits (snd (exec (handleAll evs) s)) = finalTexts evs.
Proof.
  intros Hf Hu. split.
  - destruct s; simpl in Hf; subst. unfold handleAaiEvent. run_m.
    destruct partialHandler0, previewHandler0;
      unfold set_pending, set_current, set_finalized; cbn -[Js.trim Js.truthy];
      rewrite ?str_append_nil_r; repeat split.
  - now apply updates_commits.
Qed.

Lemma final_update_commits_once_witness :
  let s := set_handlers true false false initService in
  finalHandler s = true /\
  forallb isUpdate [TranscriptUpdate "a" false None None;
                    TranscriptUpdate "A." true (Some true) (Some true)] = true /\
  (let '(s', o) := exec (handleAaiEvent (TranscriptUpdate " Hi. " true (Some true) (Some true))) s in
   let preview := Js.trim (finalized s ++ Js.trim " Hi. " ++ " ") in
   finalized s' = finalized s ++ Js.trim " Hi. " ++ " " /\
   current s' = "" /\ pendingUnformatted s' = "" /\
   o = app (OFinal " Hi. " :: (if partialHandler s then [OPartial ""] else []))
           (OStatus (Js.or_str preview "Listening…") ::
            (if previewHandler s then [OPreview preview] else [])) /\
   commits o = [" Hi. "]) /\
  commits (snd (exec (handleAll [TranscriptUpdate "a" false None None;
                    TranscriptUpdate "A." true (Some true) (Some true)]) s)) =
  finalTexts [TranscriptUpdate "a" false None None;
              TranscriptUpdate "A." true (Some true) (Some true)].
Proof.
  cbv zeta. split; [reflexivity|]. split; [reflexivity|].
  apply final_update_commits_once; reflexivity.
Defined.

Definition is_prefix (a b : string) : Prop := exists x, b = a ++ x.

Ltac prefix_tac :=
  unfold is_prefix;
  solve [ exists EmptyString; rewrite ?str_append_nil_r; reflexivity
        | eexists; reflexivity
        | rewrite ?str_append_nil_r, ?str_append_assoc; eexists; reflexivity ].

Lemma is_prefix_trans a b c : is_prefix a b -> is_prefix b c -> is_prefix a c.
Proof.
  intros [x ->] [y ->]. exists (x ++ y). now rewrite str_append_assoc.
Qed.

Lemma flush_prefix s :
  is_prefix (finalized s) (finalized (fst (exec flushPendingUnformatted s))).
Proof. destruct s. unfold flushPendingUnformatted. crunch; prefix_tac. Qed.

Lemma cleanup_finalized s :
  finalized (fst (exec cleanup s)) = finalized s.
Proof. destruct s. unfold cleanup. crunch; reflexivity. Qed.

Lemma stop_prefix s :
  is_prefix (finalized s) (finalized (fst (exec stop s))).
Proof.
  destruct s. unfold stop, flushPendingUnformatted, cleanup. crunch; prefix_tac.
Qed.

Lemma handle_prefix ev s :
  is_prefix (finalized s) (finalized (fst (exec (handleAaiEvent ev) s))).
Proof.
  destruct ev as [id|text f eot fm| |message].
  - destruct s. simpl. prefix_tac.
  - destruct s. unfold handleAaiEvent. crunch; prefix_tac.
  - apply flush_prefix.
  - destruct s. unfold handleAaiEvent, stop, flushPendingUnformatted, cleanup.
    crunch; prefix_tac.
Qed.

Definition notStart (op : Op) : bool :=
  match op with OpStart _ _ _ _ _ => false | _ => true end.

Lemma step_prefix op s :
  notStart op = true ->
  is_prefix (finalized s) (finalized (fst (exec (step op) s))).
Proof.
  intros H. destruct op as [t k c cr mr| |ev|chunk]; try discriminate.
  - apply stop_prefix.
  - unfold step, deliver. rewrite exec_bind. simpl.
    destruct (subscribed s); [|prefix_tac].
    pose proof (handle_prefix ev s) as Hp.
    destruct (exec (handleAaiEvent ev) s) as [s1 o1]. exact Hp.
  - destruct s. unfold step, onPcm16Chunk. crunch; prefix_tac.
Qed.

Lemma run_prefix ops s :
  forallb notStart ops = true ->
  is_prefix (finalized s) (finalized (fst (exec (run ops) s))).
Proof.
  revert s. induction ops as [|op ops IH]; intros s H.
  - prefix_tac.
  - simpl in H. apply andb_prop in H as [Hop H].
    cbn [run]. rewrite exec_seq.
    pose proof (step_prefix op s Hop) as H1.
    destruct (exec (step op) s) as [s1 o1]. simpl in H1.
    specialize (IH s1 H).
    destruct (exec (run ops) s1) as [s2 o2]. simpl in IH |- *.
    eapply is_prefix_trans; eassumption.
Qed.

(** C3: within a session [finalized] only grows by appending: every
    flush, every handled event and every run of operations without a
    [start] leaves the old [finalized] as a prefix of the new one. *)
Theorem finalized_append_only :
  (forall s, is_prefix (finalized s)
               (finalized (fst (exec flushPendingUnformatted s)))) /\
  (forall ev s, is_prefix (finalized s)
                  (finalized (fst (exec (handleAaiEvent ev) s)))) /\
  (forall ops s, forallb notStart ops = true ->
     is_prefix (finalized s) (finalized (fst (exec (run ops) s)))).
Proof.
  split; [exact flush_prefix|]. split; [exact handle_prefix|].
  exact run_prefix.
Qed.

Lemma finalized_append_only_witness :
  forallb notStart [OpEvent (TranscriptUpdate "hi" true (Some true) (Some true));
                    OpAudio 1; OpStop] = true /\
  is_prefix (finalized initService)
    (finalized (fst (exec (run [OpEvent (TranscriptUpdate "hi" true (Some true) (Some true));
                                OpAudio 1; OpStop]) initService))).
Proof.
  split; [reflexivity|].
  apply (proj2 (proj2 finalized_append_only)). reflexivity.
Defined.

Lemma flush_twice s :
  let '(s1, _) := exec flushPendingUnformatted s in
  exec flushPendingUnformatted s1 = (s1, []).
Proof. destruct s. unfold flushPendingUnformatted. crunch; try congruence; reflexivity. Qed.

(** C4: flushing twice in a row commits the pending tail at most once:
    the second flush changes nothing and emits nothing; in particular a
    [stop()] after [SessionTerminated] commits nothing more and leaves
    [finalized] as it is. *)
Theorem flush_idempotent (s : Service) :
  (let '(s1, _) := exec flushPendingUnformatted s in
   exec flushPendingUnformatted s1 = (s1, [])) /\
  (let s1 := fst (exec (handleAaiEvent SessionTerminated) s) in
   commits (snd (exec stop s1)) = [] /\
   finalized (fst (exec stop s1)) = finalized s1).
Proof.
  split; [apply flush_twice|].
  simpl handleAaiEvent. pose proof (flush_twice s) as H.
  destruct (exec flushPendingUnformatted s) as [s1 o1]. cbn zeta. simpl fst.
  unfold stop. rewrite exec_bind. simpl. destruct (running s1); simpl.
  - rewrite exec_seq, H.
    rewrite !exec_seq. unfold exec at 1 2 3. cbn -[cleanup].
    pose proof (cleanup_finalized s1) as Hc.
    destruct s1; unfold cleanup; crunch; auto.
  - auto.
Qed.

Lemma or_str_self a : Js.or_str a (Js.or_str a "") = a.
Proof. destruct a; reflexivity. Qed.

(** The two steps of C2: an unformatted end-of-turn update, then
    [SessionTerminated]. *)
Definition unformattedThenTerminated (text : string) (s : Service)
    : Service * list Out * Service * list Out :=
  let '(s1, o1) :=
    exec (handleAaiEvent (TranscriptUpdate text false (Some true) (Some false))) s in
  let '(s2, o2) := exec (handleAaiEvent SessionTerminated) s1 in
  (s1, o1, s2, o2).

(** C2 (as stated, refuted): a whitespace-only unformatted end-of-turn
    update followed by [SessionTerminated] is never committed: the commit
    callback is not called and [finalized] does not change. *)
Lemma fallback_commit_counterexample :
  let s := set_handlers true true true initService in
  let '(s1, o1, s2, o2) := unformattedThenTerminated " " s in
  commits (app o1 o2) = [] /\ finalized s2 = "".
Proof. vm_compute. split; reflexivity. Qed.

(** C2 (amended): after an unformatted end-of-turn update with [text]
    followed by [SessionTerminated], the flush takes [pendingUnformatted]
    (here [text]) and, when [text.trim()] is non-empty, calls the commit
    callback once with [text.trim()], appends [text.trim() + " "] to
    [finalized] and clears [current] and [pendingUnformatted]; when
    [text.trim()] is empty nothing is committed and the state is left
    as it is. *)
Theorem fallback_commit_on_termination (s : Service) (text : string) :
  finalHandler s = true ->
  let '(s1, o1, s2, o2) := unformattedThenTerminated text s in
  pendingUnformatted s1 = text /\ commits o1 = [] /\
  if Js.truthy (Js.trim text) then
    commits o2 = [Js.trim text] /\
    finalized s2 = finalized s1 ++ Js.trim text ++ " " /\
    current s2 = "" /\ pendingUnformatted s2 = ""
  else commits o2 = [] /\ s2 = s1.
Proof.
  intros Hf. destruct s; simpl in Hf; subst.
  unfold unformattedThenTerminated, handleAaiEvent, flushPendingUnformatted.
  destruct partialHandler0, previewHandler0; run_m; rewrite or_str_self;
  (destruct (Js.truthy (Js.trim text)) eqn:Ht; cbn -[Js.trim Js.truthy];
    split_ifs; cbn -[Js.trim Js.truthy]; repeat split; auto).
Qed.

Lemma fallback_commit_on_termination_witness :
  finalHandler (set_handlers true true true initService) = true /\
  let '(s1, o1, s2, o2) :=
    unformattedThenTerminated "so then" (set_handlers true true true initService) in
  pendingUnformatted s1 = "so then" /\ commits o1 = [] /\
  if Js.truthy (Js.trim "so then") then
    commits o2 = [Js.trim "so then"] /\
    finalized s2 = finalized s1 ++ Js.trim "so then" ++ " " /\
    current s2 = "" /\ pendingUnformatted s2 = ""
  else commits o2 = [] /\ s2 = s1.
Proof.
  split; [reflexivity|].
  apply fallback_commit_on_termination. reflexivity.
Defined.

(** C7 (as stated, refuted): after an update whose preview is empty the
    reconciler itself passes the placeholder ["Listening…"] to the status
    callback, and never the empty preview. *)
Lemma preview_status_counterexample :
  let '(s', o) := exec (handleAaiEvent (TranscriptUpdate " " false (Some false) (Some false)))
                    (set_handlers true true true initService) in
  Js.trim (finalized s' ++ current s') = "" /\
  In (OStatus "Listening…") o /\ ~ In (OStatus "") o /\ In (OPreview "") o.
Proof.
  vm_compute. split; [reflexivity|]. split; [right; left; reflexivity|].
  split; [|right; right; left; reflexivity].
  intros [H|[H|[H|[]]]]; discriminate.
Qed.

(** C7 (amended): after every [Update] (final or not) the reconciler
    computes [preview = (finalized + current).trim()]; its last two effects
    are the status callback with [preview], or with the placeholder
    ["Listening…"] when [preview] is empty, followed by the preview
    callback (when one is installed) with exactly [preview]. *)
Theorem update_preview_delivery (s : Service) (text : string) (f : bool)
    (eot fm : option bool) :
  let '(s', o) := exec (handleAaiEvent (TranscriptUpdate text f eot fm)) s in
  let preview := Js.trim (finalized s' ++ current s') in
  exists o0, o = app o0 (OStatus (Js.or_str preview "Listening…")
                         :: (if previewHandler s then [OPreview preview] else [])).
Proof.
  destruct s. unfold handleAaiEvent.
  destruct f, eot as [[|]|], fm as [[|]|], finalHandler0, partialHandler0,
    previewHandler0; run_m;
    match goal with
    | |- exists o0, ?o = app o0 ?t =>
        exists (firstn (length o - length t) o); reflexivity
    end.
Qed.

(** ** Claims about the realtime channel *)

Lemma is_str_turn (v : option Channel.JVal) :
  Channel.is_str v "Turn" = true -> v = Some (Channel.JStr "Turn").
Proof.
  destruct v as [[| | | s | |]|]; simpl; try discriminate.
  intros H. apply String.eqb_eq in H. now subst.
Qed.

(** C5: a [Turn] message whose [transcript] is a non-empty string yields
    exactly one [Update] with that text and
    [isFinal = endOfTurn && (turnIsFormatted || !formatTurns)]; a [Turn]
    message without a non-empty string transcript yields no event. *)
Theorem turn_message_update (formatTurns : bool) (msg : Channel.JVal) :
  Channel.is_str (Channel.field msg "type") "Turn" = true ->
  let endOfTurn := Channel.truthy (Channel.field msg "end_of_turn") in
  let formatted := Channel.truthy (Channel.field msg "turn_is_formatted") in
  (forall t, Channel.field msg "transcript" = Some (Channel.JStr t) -> t <> "" ->
     Channel.handleMessage formatTurns (Some msg) =
       [TranscriptUpdate t (endOfTurn && (formatted || negb formatTurns))
          (Some endOfTurn) (Some formatted)]) /\
  ((forall t, Channel.field msg "transcript" = Some (Channel.JStr t) -> t = "") ->
     Channel.handleMessage formatTurns (Some msg) = []).
Proof.
  intros Hty%is_str_turn. cbv zeta. unfold Channel.handleMessage.
  rewrite Hty. simpl Channel.is_str. cbv iota beta.
  split.
  - intros t Ht Hne. rewrite Ht.
    destruct t as [|c t]; [congruence|]. reflexivity.
  - intros Hempty.
    destruct (Channel.field msg "transcript") as [[| | | t | |]|]; auto.
    rewrite (Hempty t eq_refl). reflexivity.
Qed.

Definition turnMsg : Channel.JVal :=
  Channel.JObj [("type", Channel.JStr "Turn"); ("transcript", Channel.JStr "hello there");
                ("end_of_turn", Channel.JBool true);
                ("turn_is_formatted", Channel.JBool false)].

Lemma turn_message_update_witness :
  Channel.is_str (Channel.field turnMsg "type") "Turn" = true /\
  Channel.handleMessage false (Some turnMsg) =
    [TranscriptUpdate "hello there" true (Some true) (Some false)] /\
  Channel.handleMessage true (Some turnMsg) =
    [TranscriptUpdate "hello there" false (Some true) (Some false)].
Proof.
  split; [reflexivity|]. split.
  - apply (proj1 (turn_message_update false turnMsg eq_refl)).
    + reflexivity.
    + discriminate.
  - apply (proj1 (turn_message_update true turnMsg eq_refl)).
    + reflexivity.
    + discriminate.
Defined.

(** ** Claims about [start] and the session lifecycle *)

Definition defaultConfig : Config := mkConfig (JFin 16000) (JFin 800) true.

(** A session whose only update is a whitespace-only unformatted end of
    turn, stopped, and a second session started afterwards. *)
Definition staleSession : list Op :=
  [OpStart None "key" defaultConfig None None;
   OpEvent (TranscriptUpdate " " false (Some true) (Some false));
   OpStop;
   OpStart None "key" defaultConfig None None].

(** C6 (code defect): [start()] resets [finalized] and [current] but not
    [pendingUnformatted]; the stale value survives into the next session,
    where it hides the partial text from the flush on [stop()]. *)
Lemma start_keeps_stale_pending :
  let s := fst (exec (run staleSession) initService) in
  running s = true /\ finalized s = "" /\ current s = "" /\
  pendingUnformatted s = " " /\
  commits (snd (exec (run [OpEvent (TranscriptUpdate "hello" false (Some false) (Some false));
                           OpStop]) s)) = [] /\
  commits (snd (exec (run [OpEvent (TranscriptUpdate "hello" false (Some false) (Some false));
                           OpStop]) (set_pending "" s))) = ["hello"].
Proof. vm_compute. repeat split; reflexivity. Qed.

(** *** Closed forms of [flushPendingUnformatted], [cleanup] and [stop] *)

Definition flushFallback (s : Service) : string :=
  Js.trim (Js.or_str (pendingUnformatted s) (Js.or_str (current s) "")).

Definition flushState (s : Service) : Service :=
  mkService
    (if Js.truthy (flushFallback s) then finalized s ++ flushFallback s ++ " "
     else finalized s)
    (if Js.truthy (flushFallback s) then "" else current s)
    (if Js.truthy (flushFallback s) then "" else pendingUnformatted s)
    (running s) (finalHandler s) (partialHandler s) (previewHandler s)
    (aai s) (subscribed s) (mic s) (nextChan s).

Definition flushOut (s : Service) : list Out :=
  if Js.truthy (flushFallback s)
  then app (if finalHandler s then [OFinal (flushFallback s)] else [])
           (if partialHandler s then [OPartial ""] else [])
  else [].

Definition cleanupState (s : Service) : Service :=
  mkService (finalized s) (current s) (pendingUnformatted s) (running s)
    false false false None false None (nextChan s).

Definition cleanupOut (s : Service) : list Out :=
  app (if partialHandler s then [OPartial ""] else [])
  (app (if previewHandler s then [OPreview ""] else [])
  (app (match aai s with Some ch => [OTerminate (chan_id ch)] | None => [] end)
  (app (match mic s with Some _ => [OMicStop] | None => [] end)
       [OStatus ""]))).

Definition stopState (s : Service) : Service :=
  if running s
  then mkService (finalized (flushState s)) (current (flushState s))
         (pendingUnformatted (flushState s)) false false false false None false
         None (nextChan s)
  else s.

Definition stopOut (s : Service) : list Out :=
  if running s
  then app (flushOut s)
       (ORunning false :: OStatus "Stopping…" ::
        app (cleanupOut s) [ONotice "Live transcription stopped."])
  else [].

Lemma flush_raw s : flushPendingUnformatted s = (tt, flushState s, flushOut s).
Proof.
  destruct s. unfold flushPendingUnformatted, flushState, flushOut, flushFallback.
  run_m. destruct (Js.truthy _); simpl;
    [destruct finalHandler0, partialHandler0|]; reflexivity.
Qed.

Lemma cleanup_raw s : cleanup s = (tt, cleanupState s, cleanupOut s).
Proof.
  destruct s as [f c p r fh ph vh a sub m nc]. unfold cleanup, cleanupState, cleanupOut.
  run_m. destruct ph, vh, a, m; reflexivity.
Qed.

Lemma stop_raw s : stop s = (tt, stopState s, stopOut s).
Proof.
  unfold stop, stopState, stopOut, bind, get, ret, modify, emit, status, notice.
  destruct (running s); [|reflexivity]. simpl.
  rewrite flush_raw, cleanup_raw. reflexivity.
Qed.

Lemma exec_raw {A} (m : M A) (a : A) s s' o :
  m s = (a, s', o) -> exec m s = (s', o).
Proof. intros H. unfold exec. now rewrite H. Qed.

(** Evaluation of a method with [stop], [cleanup] and
    [flushPendingUnformatted] replaced by their closed forms. *)
Ltac raw_rw :=
  repeat (rewrite stop_raw || rewrite cleanup_raw || rewrite flush_raw);
  cbv beta iota zeta delta [stopState cleanupState flushState]; cbn [app].

Ltac run_v :=
  unfold callFinal, callPartial, callPreview, status, notice in *;
  cbv beta iota zeta delta -[stop cleanup flushPendingUnformatted Js.trim Js.truthy
     Js.to_lower Js.includes sanitize stopOut cleanupOut flushFallback flushOut In app];
  raw_rw.

Ltac split_one :=
  match goal with
  | |- context [if ?b then _ else _] =>
      lazymatch b with
      | context [if _ then _ else _] => fail
      | context [stop _] => fail
      | context [cleanup _] => fail
      | context [flushPendingUnformatted _] => fail
      | _ => destruct b eqn:?
      end
  | |- context [match ?o with Some _ => _ | None => _ end] =>
      lazymatch o with
      | Some _ => fail
      | None => fail
      | context [if _ then _ else _] => fail
      | context [stop _] => fail
      | context [cleanup _] => fail
      | context [flushPendingUnformatted _] => fail
      | _ => destruct o eqn:?
      end
  end.

Ltac split_v :=
  repeat (repeat split_one; cbv beta iota zeta in *; raw_rw; try discriminate;
          repeat match goal with
                 | H : Some _ = Some _ |- _ => injection H as H
                 end).

Ltac subst_vars :=
  repeat match goal with ch : Chan |- _ => destruct ch end;
  repeat match goal with H : ?x = _ |- _ => is_var x; subst x end;
  cbn -[cleanupOut stopOut flushOut Js.trim Js.truthy] in *;
  repeat match goal with H : ?x = _ |- _ => is_var x; subst x end;
  cbn [chan_id chan_open] in *.

(** Outputs that neither open a channel, start a capture nor send audio. *)
Definition quietOut (x : Out) : bool :=
  match x with OSend _ _ | OChannel _ _ _ | OMicStart _ _ => false | _ => true end.

Lemma flushOut_quiet s x : In x (flushOut s) -> quietOut x = true.
Proof.
  unfold flushOut. destruct (Js.truthy _); [|simpl; tauto].
  destruct (finalHandler s), (partialHandler s); simpl;
    intros H; intuition (subst; reflexivity).
Qed.

Lemma cleanupOut_quiet s x : In x (cleanupOut s) -> quietOut x = true.
Proof.
  unfold cleanupOut. destruct (partialHandler s), (previewHandler s), (aai s), (mic s);
    simpl; intros H; intuition (subst; reflexivity).
Qed.

Lemma stopOut_quiet s x : In x (stopOut s) -> quietOut x = true.
Proof.
  unfold stopOut. destruct (running s); [|simpl; tauto].
  intros H. apply in_app_or in H as [H|H]; [exact (flushOut_quiet s x H)|].
  simpl in H. destruct H as [<-|[<-|H]]; try reflexivity.
  apply in_app_or in H as [H|H]; [exact (cleanupOut_quiet s x H)|].
  simpl in H; intuition (subst; reflexivity).
Qed.

Ltac quiet_close :=
  match goal with
  | H : In _ (stopOut _) |- _ => pose proof (stopOut_quiet _ _ H); discriminate
  | H : In _ (cleanupOut _) |- _ => pose proof (cleanupOut_quiet _ _ H); discriminate
  | H : In _ (flushOut _) |- _ => pose proof (flushOut_quiet _ _ H); discriminate
  end.

(** Channel identities below [n] are dead: no live channel of the
    service and no future channel has one. *)
Definition chanAbove (n : nat) (s : Service) : Prop :=
  match aai s with Some ch => n < chan_id ch | None => True end /\
  n < nextChan s.

Lemma step_fresh (n : nat) (op : Op) (s : Service) :
  chanAbove n s ->
  chanAbove n (fst (exec (step op) s)) /\
  forall c, ~ In (OSend n c) (snd (exec (step op) s)).
Proof.
  destruct s as [f cur p r fh ph vh a sub m nc].
  unfold chanAbove; simpl. intros [Ha Hn].
  destruct op as [t k c cr mr| |ev|chunk]; unfold step;
  [ unfold start | | unfold deliver, handleAaiEvent; destruct ev | unfold onPcm16Chunk ];
  run_v; split_v; subst_vars;
  split; try split; try lia;
  intros ? H; cbn -[cleanupOut stopOut flushOut] in H; rewrite ?in_app_iff in H;
  intuition (try congruence; try quiet_close;
    match goal with
    | H : OSend _ _ = OSend _ _ |- _ => injection H; intros; lia
    end).
Qed.

Lemma run_fresh (n : nat) (ops : list Op) (s : Service) :
  chanAbove n s -> forall c, ~ In (OSend n c) (snd (exec (run ops) s)).
Proof.
  revert s. induction ops as [|op ops IH]; intros s Hs c; [simpl; tauto|].
  cbn [run]. rewrite exec_seq.
  destruct (step_fresh n op s Hs) as [Hs1 Hno].
  destruct (exec (step op) s) as [s1 o1]. simpl in Hs1, Hno.
  specialize (IH s1 Hs1 c).
  destruct (exec (run ops) s1) as [s2 o2]. simpl in IH |- *.
  rewrite in_app_iff. intros [H|H]; [exact (Hno c H) | exact (IH H)].
Qed.

Lemma auth_stop_state (s : Service) (m : string) :
  running s = true ->
  Js.includes (Js.to_lower m) "not authorized" = true ->
  let s1 := fst (exec (handleAaiEvent (ErrorEv m)) s) in
  running s1 = false /\ aai s1 = None /\ nextChan s1 = nextChan s.
Proof.
  intros Hr Hm. destruct s; simpl in Hr; subst.
  unfold handleAaiEvent, stop, flushPendingUnformatted, cleanup.
  crunch; rewrite ?Hm in *; crunch; auto.
Qed.

(** C8: an [Error] whose lower-cased message contains ["not authorized"],
    processed while running, stops the session ([running] becomes false)
    and no chunk is ever sent afterwards on the session's channel, whatever
    happens next (audio chunks, events, stops, new sessions); an [Error]
    without that substring leaves the state unchanged. *)
Theorem auth_error_is_fatal (s : Service) (m : string) :
  running s = true ->
  (forall ch, aai s = Some ch -> chan_id ch < nextChan s) ->
  let s1 := fst (exec (handleAaiEvent (ErrorEv m)) s) in
  (Js.includes (Js.to_lower m) "not authorized" = true ->
   running s1 = false /\
   forall ch ops c, aai s = Some ch ->
     ~ In (OSend (chan_id ch) c) (snd (exec (run ops) s1))) /\
  (Js.includes (Js.to_lower m) "not authorized" = false -> s1 = s).
Proof.
  intros Hr Hwf. cbv zeta. split.
  - intros Hm. destruct (auth_stop_state s m Hr Hm) as (Hr1 & Ha1 & Hn1).
    split; [exact Hr1|].
    intros ch ops c Hch. apply run_fresh.
    unfold chanAbove. rewrite Ha1, Hn1. split; [exact I | now apply Hwf].
  - intros Hm. destruct s. unfold handleAaiEvent. run_m. rewrite Hm. reflexivity.
Qed.

Definition runningService : Service :=
  fst (exec (start None "key" defaultConfig None None) initService).

Lemma auth_error_is_fatal_witness :
  running runningService = true /\
  (forall ch, aai runningService = Some ch -> chan_id ch < nextChan runningService) /\
  let s1 := fst (exec (handleAaiEvent (ErrorEv "Not Authorized")) runningService) in
  (Js.includes (Js.to_lower "Not Authorized") "not authorized" = true ->
   running s1 = false /\
   forall ch ops c, aai runningService = Some ch ->
     ~ In (OSend (chan_id ch) c) (snd (exec (run ops) s1))) /\
  (Js.includes (Js.to_lower "Not Authorized") "not authorized" = false -> s1 = runningService).
Proof.
  split; [reflexivity|].
  assert (Hwf : forall ch, aai runningService = Some ch ->
                  chan_id ch < nextChan runningService).
  { vm_compute. intros ch H. injection H as <-. simpl. lia. }
  split; [exact Hwf|].
  apply auth_error_is_fatal; [reflexivity | exact Hwf].
Defined.

(** The value [start] must use for a setting [x] with default [d]:
    [x] itself when it is a finite number greater than zero, else [d]. *)
Definition chosen (x : JsNum) (d r : Q) : Prop :=
  (exists q, x = JFin q /\ (0 < q)%Q /\ r = q) \/
  ((forall q, x = JFin q -> (q <= 0)%Q) /\ r = d).

Lemma sanitize_chosen (x : JsNum) (d : Q) : chosen x d (sanitize x d).
Proof.
  unfold chosen, sanitize. destruct x as [q| | |].
  - destruct (Qle_bool q 0) eqn:E; simpl.
    + right. split; [|reflexivity]. intros q' H. injection H as <-.
      now apply Qle_bool_iff.
    + left. exists q. repeat split.
      apply Qnot_le_lt. intros H. apply Qle_bool_iff in H. congruence.
  - right. split; [intros q H; discriminate | reflexivity].
  - right. split; [intros q H; discriminate | reflexivity].
  - right. split; [intros q H; discriminate | reflexivity].
Qed.

Lemma start_outputs (s : Service) target apiKey config cr mr :
  running s = false -> Js.truthy (Js.trim apiKey) = true ->
  let sr := sanitize (cfgSampleRate config) 16000 in
  let cs := sanitize (cfgChunkSizeSamples config) 800 in
  let o := snd (exec (start target apiKey config cr mr) s) in
  (forall id r ft, In (OChannel id r ft) o -> r = sr) /\
  (forall c r, In (OMicStart c r) o -> c = cs /\ r = sr) /\
  In (OChannel (nextChan s) sr (cfgFormatTurns config)) o /\
  (cr = None -> mr = None -> In (OMicStart cs sr) o).
Proof.
  intros Hr Hk. destruct s; simpl in Hr; subst.
  unfold start. run_v. rewrite Hk. cbv beta iota zeta.
  split_v; subst_vars; repeat split;
  repeat match goal with
         | |- forall _, _ => intro
         | |- _ -> _ => intro
         end;
  repeat match goal with H : In _ _ |- _ =>
    cbn -[cleanupOut stopOut flushOut] in H; rewrite ?in_app_iff in H; revert H end;
  cbn -[cleanupOut stopOut flushOut];
  intuition (try congruence; try quiet_close).
Qed.

(** C10: a [start()] that passes its guards (not running, non-empty key)
    creates the channel with the sample rate replaced by [16000] unless it
    is a finite number greater than zero, and starts the capture (when the
    connection succeeds) with that sample rate and with the chunk size
    replaced by [800] unless it is a finite number greater than zero; no
    other sample rate or chunk size reaches the channel or the capture. *)
Theorem start_sanitizes_config (s : Service) (target : option Target)
    (apiKey : string) (config : Config) (cr mr : option string) :
  running s = false -> Js.truthy (Js.trim apiKey) = true ->
  let o := snd (exec (start target apiKey config cr mr) s) in
  (exists r, In (OChannel (nextChan s) r (cfgFormatTurns config)) o) /\
  (forall id r ft, In (OChannel id r ft) o -> chosen (cfgSampleRate config) 16000 r) /\
  (forall c r, In (OMicStart c r) o ->
     chosen (cfgChunkSizeSamples config) 800 c /\
     chosen (cfgSampleRate config) 16000 r) /\
  (cr = None -> mr = None -> exists c r, In (OMicStart c r) o).
Proof.
  intros Hr Hk. cbv zeta.
  destruct (start_outputs s target apiKey config cr mr Hr Hk)
    as (Hch & Hmic & Hin & Hstart).
  split; [eexists; exact Hin|]. split.
  - intros id r ft H. rewrite (Hch id r ft H). apply sanitize_chosen.
  - split.
    + intros c r H. destruct (Hmic c r H) as [-> ->].
      split; apply sanitize_chosen.
    + intros H1 H2. do 2 eexists. exact (Hstart H1 H2).
Qed.

Lemma start_sanitizes_config_witness :
  let config := mkConfig JNaN (JFin (-5)) true in
  running initService = false /\ Js.truthy (Js.trim " key ") = true /\
  let o := snd (exec (start None " key " config None None) initService) in
  (exists r, In (OChannel (nextChan initService) r (cfgFormatTurns config)) o) /\
  (forall id r ft, In (OChannel id r ft) o -> chosen (cfgSampleRate config) 16000 r) /\
  (forall c r, In (OMicStart c r) o ->
     chosen (cfgChunkSizeSamples config) 800 c /\
     chosen (cfgSampleRate config) 16000 r) /\
  (None = @None string -> None = @None string -> exists c r, In (OMicStart c r) o).
Proof.
  cbv zeta. split; [reflexivity|]. split; [reflexivity|].
  apply start_sanitizes_config; reflexivity.
Defined.

(** ** Claim about the recording controller *)

Definition busyNotices : list string :=
  ["Another scribe block is recording.";
   "Live transcription is already running.";
   "Recorded transcription is already running.";
   "Live transcription is running. Stop it before recording audio."].

(** C9: while a session is active (the live service running, for a block
    or ad hoc, or a recorded session recording or transcribing), a request
    of a block [b] that does not own it to start recording, in either mode,
    returns [false], shows one busy notice and leaves the whole state
    (service, owners, recorded session) unchanged. *)
Theorem busy_start_rejected (p : Plugin.Plugin) (b : string)
    (mode : Plugin.RecordingMode) (target : Target) (apiKey : string)
    (config : Config) (cr mr capture : option string) :
  (running (Plugin.live p) || Plugin.recRecording p || Plugin.recTranscribing p) = true ->
  (running (Plugin.live p) = true -> Plugin.streamRecordingBlockId p <> Some b) ->
  (Plugin.recRecording p || Plugin.recTranscribing p = true ->
   Plugin.fileRecordingBlockId p <> Some b) ->
  exists msg,
    Plugin.startRecordingForBlock p b mode target apiKey config cr mr capture =
      (false, p, [ONotice msg]) /\ In msg busyNotices.
Proof.
  intros Hact Hlive Hfile.
  destruct p as [svc sid rr rt fid]; simpl in *.
  unfold Plugin.startRecordingForBlock, Plugin.startFileRecordingForBlock.
  simpl. destruct (running svc), rr, rt; simpl in *; try discriminate;
  destruct mode;
  try (eexists; split; [reflexivity | simpl; tauto]);
  unfold Plugin.activeId;
  first
    [ destruct sid as [a|]; [|eexists; split; [reflexivity | simpl; tauto]];
      specialize (Hlive eq_refl)
    | destruct fid as [a|]; [|eexists; split; [reflexivity | simpl; tauto]];
      specialize (Hfile eq_refl) ];
  (destruct (String.eqb a b) eqn:E;
   [apply String.eqb_eq in E; subst; congruence|]);
  simpl; destruct (Js.truthy a); eexists; split; try reflexivity; simpl; tauto.
Qed.

Definition blockASession : Plugin.Plugin :=
  Plugin.mkPlugin runningService (Some "blockA") false false None.

Lemma busy_start_rejected_witness :
  (running (Plugin.live blockASession) || Plugin.recRecording blockASession
     || Plugin.recTranscribing blockASession) = true /\
  (running (Plugin.live blockASession) = true ->
   Plugin.streamRecordingBlockId blockASession <> Some "blockB") /\
  (Plugin.recRecording blockASession || Plugin.recTranscribing blockASession = true ->
   Plugin.fileRecordingBlockId blockASession <> Some "blockB") /\
  exists msg,
    Plugin.startRecordingForBlock blockASession "blockB" Plugin.Stream
      (mkTarget true true) "key" defaultConfig None None None =
      (false, blockASession, [ONotice msg]) /\ In msg busyNotices.
Proof.
  assert (H1 : (running (Plugin.live blockASession) || Plugin.recRecording blockASession
                || Plugin.recTranscribing blockASession) = true) by reflexivity.
  assert (H2 : running (Plugin.live blockASession) = true ->
               Plugin.streamRecordingBlockId blockASession <> Some "blockB")
    by (intros _; simpl; discriminate).
  assert (H3 : Plugin.recRecording blockASession
               || Plugin.recTranscribing blockASession = true ->
               Plugin.fileRecordingBlockId blockASession <> Some "blockB")
    by (simpl; discriminate).
  split; [exact H1|]. split; [exact H2|]. split; [exact H3|].
  exact (busy_start_rejected blockASession "blockB" Plugin.Stream (mkTarget true true)
           "key" defaultConfig None None None H1 H2 H3).
Defined.

(** ** Further properties of the service *)









(** ** Calls interleaving with a suspended [start()] *)



(** *** Lists of frames and the outside world *)

Lemma nth_error_at {A} (l r : list A) :
  nth_error (app l r) (length l) = nth_error r 0.
Proof. induction l; simpl; auto. Qed.

Lemma nth_error_at_S {A} (l r : list A) :
  nth_error (app l r) (S (length l)) = nth_error r 1.
Proof. induction l; simpl; auto. Qed.

Lemma set_nth_at {A} (l r : list A) (x : A) :
  set_nth (length l) x (app l r) = app l (set_nth 0 x r).
Proof. induction l; simpl; [reflexivity | now f_equal]. Qed.

Lemma set_nth_at_S {A} (l r : list A) (x : A) :
  set_nth (S (length l)) x (app l r) = app l (set_nth 1 x r).
Proof. induction l; simpl; [reflexivity | now f_equal]. Qed.

Lemma env_flushOut s e : fold_left envOut (flushOut s) e = e.
Proof.
  destruct e as [l c]. unfold flushOut. destruct (Js.truthy _); [|reflexivity].
  destruct (finalHandler s), (partialHandler s); reflexivity.
Qed.

Lemma env_cleanupOut s l c :
  fold_left envOut (cleanupOut s) (l, c) =
  (match aai s with Some ch => remove Nat.eq_dec (chan_id ch) l | None => l end,
   match mic s with Some _ => pred c | None => c end).
Proof.
  unfold cleanupOut. destruct (partialHandler s), (previewHandler s), (aai s), (mic s);
    reflexivity.
Qed.

Lemma env_stopOut s e :
  fold_left envOut (stopOut s) e =
  if running s then fold_left envOut (cleanupOut s) e else e.
Proof.
  unfold stopOut. destruct (running s); [|reflexivity].
  rewrite fold_left_app, env_flushOut. cbn [fold_left].
  rewrite fold_left_app. destruct e as [l c]. cbn [envOut].
  destruct (fold_left envOut (cleanupOut s) (l, c)). reflexivity.
Qed.

(** *** The steps of the world in closed form *)


Lemma stepW_toggle_idle (w : World) apiKey config :
  running (svc w) = false -> Js.truthy (Js.trim apiKey) = true ->
  stepW (AToggle apiKey config) w =
  (mkWorld (svc w)
     (app (frames w) [Some (AtKeyterms None (sanitize (cfgChunkSizeSamples config) 800)
                         (sanitize (cfgSampleRate config) 16000) (cfgFormatTurns config))])
     (listening w) (captures w), []).
Proof.
  intros Hr Hk. unfold stepW, runIn, toggle, startBegin, bind, get, ret.
  cbv beta iota zeta. rewrite Hr. cbv beta iota zeta. rewrite Hr, Hk. reflexivity.
Qed.

Lemma stepW_stop (w : World) :
  stepW AStop w =
  let '(l, c) := fold_left envOut (stopOut (svc w)) (listening w, captures w) in
  (mkWorld (stopState (svc w)) (frames w) l c, stopOut (svc w)).
Proof.
  unfold stepW, runIn, bind, ret. rewrite stop_raw. rewrite app_nil_r. reflexivity.
Qed.

Lemma stepW_toggle_running (w : World) apiKey config :
  running (svc w) = true -> stepW (AToggle apiKey config) w = stepW AStop w.
Proof.
  intros Hr. unfold stepW, runIn, toggle, bind, get, ret. rewrite Hr, stop_raw.
  reflexivity.
Qed.

(** The service after [afterKeyterms]. *)
Definition keytermsState (target : option Target) (s : Service) : Service :=
  mkService "" "" (pendingUnformatted s) true true
    (match target with Some t => hasPartial t | None => false end)
    (match target with Some t => hasPreview t | None => false end)
    (Some (mkChan (nextChan s) false)) true (mic s) (S (nextChan s)).

Lemma stepW_settle_keyterms (w : World) i r target cs sr ft :
  nth_error (frames w) i = Some (Some (AtKeyterms target cs sr ft)) ->
  stepW (ASettle i r) w =
  (mkWorld (keytermsState target (svc w))
     (set_nth i (Some (AtConnect (nextChan (svc w)) cs sr)) (frames w))
     (nextChan (svc w) :: listening w) (captures w),
   [ORunning true; OStatus "Starting transcription…"; OChannel (nextChan (svc w)) sr ft]).
Proof.
  intros Hi. unfold stepW. rewrite Hi.
  destruct w as [[f cur p rn fh ph vh a sub m nc] fr l c].
  reflexivity.
Qed.



Ltac frame_at :=
  cbn [frames]; rewrite <- ?app_assoc; cbn [app];
  rewrite ?set_nth_at, ?set_nth_at_S, ?nth_error_at, ?nth_error_at_S; reflexivity.


Lemma stopOut_terminates (s : Service) (id : nat) :
  In (OTerminate id) (stopOut s) ->
  exists open_, aai s = Some (mkChan id open_).
Proof.
  unfold stopOut, flushOut, cleanupOut. destruct (running s); [|intros []].
  destruct (Js.truthy (flushFallback s)), (finalHandler s), (partialHandler s),
    (previewHandler s), (aai s) as [[cid o]|], (mic s); cbn; intros H;
    repeat match goal with H : _ \/ _ |- _ => destruct H as [H|H] end;
    try discriminate; try contradiction; injection H as <-; eauto.
Qed.

(** [toggle()] twice while the first call still reads the keyterms: both
    see [running] false and both go on to create a channel, the second
    overwriting [aai] and [unsubAai] of the first. Once both have read the
    keyterms, a third [toggle()] stops the session and terminates only the second channel; the first one is
    never terminated nor unsubscribed, and an event it emits still reaches
    [handleAaiEvent] of the stopped service. *)
Theorem double_toggle_leaks_channel (w : World) (apiKey : string) (config : Config)
    (message : string) :
  running (svc w) = false -> Js.truthy (Js.trim apiKey) = true ->
  let n := length (frames w) in
  let id := nextChan (svc w) in
  let r := runW [AToggle apiKey config; AToggle apiKey config;
                 ASettle n None; ASettle (S n) None; AToggle apiKey config] w in
  let w1 := fst r in
  running (svc w1) = false /\ aai (svc w1) = None /\
  In id (listening w1) /\ ~ In (OTerminate id) (snd r) /\
  In (OTerminate (S id)) (snd r) /\
  snd (stepW (AEvent id (ErrorEv message)) w1) =
    [OStatus "Transcription error."; ONotice ("Transcription error: " ++ message)].
Proof.
  destruct w as [s fr l c]; cbn [svc frames]. intros Hr Hk. cbv zeta.
  cbn [runW].
  rewrite stepW_toggle_idle by assumption. cbn [svc frames listening captures].
  rewrite stepW_toggle_idle by assumption. cbn [svc frames listening captures].
  erewrite stepW_settle_keyterms by frame_at. cbn [svc frames listening captures].
  erewrite stepW_settle_keyterms by frame_at. cbn [svc frames listening captures].
  rewrite stepW_toggle_running by reflexivity.
  rewrite stepW_stop. cbn [svc frames listening captures].
  rewrite env_stopOut, env_cleanupOut. unfold keytermsState.
  cbn [running aai mic chan_id stopState svc frames listening captures nextChan fst snd].
  assert (Hin : In (nextChan s)
    (remove Nat.eq_dec (S (nextChan s)) (S (nextChan s) :: nextChan s :: l))).
  { apply in_in_remove; [lia | right; left; reflexivity]. }
  split; [reflexivity|]. split; [reflexivity|]. split; [exact Hin|]. split; [|split].
  - rewrite !in_app_iff. cbn [In]. intros H.
    repeat match goal with H : _ \/ _ |- _ => destruct H as [H|H] end;
      try discriminate; try contradiction.
    apply stopOut_terminates in H. destruct H as [o Ho]. cbn [aai] in Ho.
    injection Ho. lia.
  - rewrite !in_app_iff. do 4 right. left. unfold stopOut. cbn [running].
    apply in_or_app. right. right. right. apply in_or_app. left.
    unfold cleanupOut. cbn. left. reflexivity.
  - unfold stepW. cbn [listening].
    replace (existsb _ _) with true
      by (symmetry; apply existsb_exists; exists (nextChan s); split;
          [exact Hin | apply Nat.eqb_refl]).
    unfold runIn, handleAaiEvent, status, notice, bind, ret, emit. cbn [svc].
    destruct (Js.includes _ _); [rewrite stop_raw|]; cbn [stopOut running];
      destruct (fold_left _ _ _); reflexivity.
Qed.


Lemma double_toggle_leaks_channel_witness :
  running (svc initWorld) = false /\ Js.truthy (Js.trim "key") = true /\
  (let n := length (frames initWorld) in
   let id := nextChan (svc initWorld) in
   let r := runW [AToggle "key" defaultConfig; AToggle "key" defaultConfig;
                  ASettle n None; ASettle (S n) None; AToggle "key" defaultConfig]
              initWorld in
   let w1 := fst r in
   running (svc w1) = false /\ aai (svc w1) = None /\
   In id (listening w1) /\ ~ In (OTerminate id) (snd r) /\
   In (OTerminate (S id)) (snd r) /\
   snd (stepW (AEvent id (ErrorEv "closed")) w1) =
     [OStatus "Transcription error."; ONotice ("Transcription error: " ++ "closed")]).
Proof.
  split; [reflexivity|]. split; [reflexivity|].
  apply double_toggle_leaks_channel; reflexivity.
Defined.

(** ** Insertion into the editor *)

(** *** Facts about [split("\n")] *)

Lemma split_nl_cons (s : string) : exists x xs, Js.split_nl s = x :: xs.
Proof.
  destruct s as [|c r]; simpl; [eauto|].
  destruct (Ascii.eqb c (ascii_of_nat 10)); [eauto|].
  destruct (Js.split_nl r); eauto.
Qed.

Lemma split_nl_app (a b : string) :
  Js.split_nl (a ++ b) =
  app (removelast (Js.split_nl a))
      ((last (Js.split_nl a) "" ++ hd "" (Js.split_nl b)) :: tl (Js.split_nl b)).
Proof.
  induction a as [|c r IH].
  - simpl. destruct (split_nl_cons b) as (x & xs & ->). reflexivity.
  - cbn [append Js.split_nl]. rewrite IH.
    destruct (split_nl_cons r) as (x & xs & Hr). rewrite Hr.
    destruct (Ascii.eqb c (ascii_of_nat 10)).
    + destruct xs; reflexivity.
    + destruct xs as [|y ys]; [reflexivity|].
      cbn [removelast app last]. reflexivity.
Qed.

Lemma nth_last_idx (l : list string) :
  l <> [] -> nth (length l - 1) l "" = last l "".
Proof.
  induction l as [|x l IH]; [congruence|]. intros _.
  destruct l as [|y l]; [reflexivity|].
  assert (E : length (x :: y :: l) - 1 = S (length (y :: l) - 1)) by (simpl; lia).
  rewrite E.
  change (nth (S (length (y :: l) - 1)) (x :: y :: l) "")
    with (nth (length (y :: l) - 1) (y :: l) "").
  rewrite IH by discriminate. reflexivity.
Qed.

Lemma split_nl_single (t x : string) : Js.split_nl t = [x] -> x = t.
Proof.
  revert x. induction t as [|c r IH]; intros x H; simpl in H.
  - congruence.
  - destruct (Ascii.eqb c (ascii_of_nat 10)).
    + destruct (split_nl_cons r) as (y & ys & Hr). rewrite Hr in H. discriminate.
    + destruct (split_nl_cons r) as (y & ys & Hr). rewrite Hr in H.
      destruct ys; [|discriminate]. injection H as <-. f_equal. now apply IH.
Qed.

(** [advanceCursor] read through the line count and the last line. *)
Lemma advanceCursor_eq (c : Cursor) (t : string) :
  advanceCursor c t =
  if Nat.eqb (length (Js.split_nl t)) 1
  then mkCursor (line c) (ch c + String.length t)
  else mkCursor (line c + length (Js.split_nl t) - 1)
                (String.length (last (Js.split_nl t) "")).
Proof.
  unfold advanceCursor. destruct (split_nl_cons t) as (x & xs & Hx).
  destruct (Nat.eqb (length (Js.split_nl t)) 1) eqn:E.
  - rewrite Hx in *. destruct xs; [|discriminate].
    rewrite (split_nl_single t x Hx). reflexivity.
  - rewrite nth_last_idx by (rewrite Hx; discriminate). reflexivity.
Qed.

Lemma length_removelast_cons {A} (x : A) (xs : list A) :
  length (removelast (x :: xs)) = length xs.
Proof.
  revert x. induction xs as [|y ys IH]; intros x; [reflexivity|].
  change (removelast (x :: y :: ys)) with (x :: removelast (y :: ys)).
  cbn [length]. now rewrite IH.
Qed.

Lemma last_app_cons {A} (l : list A) (x : A) (xs : list A) (d : A) :
  last (app l (x :: xs)) d = last (x :: xs) d.
Proof.
  induction l as [|y l IH]; [reflexivity|].
  rewrite <- app_comm_cons. destruct l; simpl in *; [destruct xs; reflexivity|].
  exact IH.
Qed.

Lemma string_length_app (a b : string) :
  String.length (a ++ b) = String.length a + String.length b.
Proof. induction a as [|c a IH]; simpl; [reflexivity | now rewrite IH]. Qed.

Lemma advanceCursor_concat (c : Cursor) (a b : string) :
  advanceCursor (advanceCursor c a) b = advanceCursor c (a ++ b).
Proof.
  rewrite !advanceCursor_eq. rewrite split_nl_app.
  destruct (split_nl_cons a) as (x & xs & Ha).
  destruct (split_nl_cons b) as (y & ys & Hb).
  rewrite Ha, Hb. cbn [hd tl].
  rewrite length_app, length_removelast_cons. cbn [length].
  destruct xs as [|x' xs], ys as [|y' ys].
  - (* no line break *)
    cbn -[String.length].
    f_equal. rewrite string_length_app. lia.
  - (* a line break in [b] only *)
    cbn. reflexivity.
  - (* a line break in [a] only *)
    cbn [Nat.eqb length].
    replace (Nat.eqb (S (length xs) + 1) 1) with false
      by (symmetry; apply Nat.eqb_neq; lia).
    rewrite last_app_cons. cbn [last].
    rewrite (split_nl_single b y Hb). cbn [line ch].
    rewrite string_length_app. f_equal; lia.
  - (* line breaks in both *)
    cbn [Nat.eqb length].
    replace (Nat.eqb (S (length xs) + S (S (length ys))) 1) with false
      by (symmetry; apply Nat.eqb_neq; lia).
    rewrite last_app_cons. cbn [line]. f_equal. lia.
Qed.

(** Advancing the cursor over [a] and then over [b] is advancing it over
    [a ++ b]: successive insertions at the advanced cursor land one after
    the other, across line breaks as well. *)
Theorem advanceCursor_app (c : Cursor) (a b : string) :
  advanceCursor (advanceCursor c a) b = advanceCursor c (a ++ b).
Proof. apply advanceCursor_concat. Qed.

Lemma advanceCursor_space_ch (c : Cursor) (s : string) :
  ch (advanceCursor c (s ++ " ")) <> 0.
Proof.
  rewrite advanceCursor_eq, split_nl_app.
  change (Js.split_nl " ") with [" "]. cbn [hd tl].
  destruct (split_nl_cons s) as (x & xs & Hs). rewrite Hs.
  destruct xs as [|x' xs].
  - cbn -[String.length]. rewrite string_length_app. cbn. lia.
  - rewrite length_app, length_removelast_cons. cbn [length].
    replace (Nat.eqb (S (length xs) + 1) 1) with false
      by (symmetry; apply Nat.eqb_neq; lia).
    rewrite last_app_cons. cbn [last ch]. rewrite string_length_app. cbn. lia.
Qed.

(** Two final transcripts committed one after the other (the second at
    the cursor the first one set) are separated by a space: the second
    insertion always starts with [" "], and the cursor ends where
    inserting both texts at the first cursor would leave it. *)
Theorem insertFinal_consecutive (c c1 : Cursor) (t1 t2 ins1 : string) :
  insertFinalAtCursor (Some c) t1 = [ReplaceRange ins1 c; SetCursor c1] ->
  Js.truthy (Js.trim t2) = true ->
  insertFinalAtCursor (Some c1) t2 =
    [ReplaceRange (" " ++ Js.trim t2 ++ " ") c1;
     SetCursor (advanceCursor c (ins1 ++ " " ++ Js.trim t2 ++ " "))].
Proof.
  intros H1 H2. unfold insertFinalAtCursor in *.
  destruct (negb (Js.truthy (Js.trim t1))); [discriminate|].
  injection H1 as <- <-. rewrite H2. cbn [negb].
  set (p := if Nat.eqb (ch c) 0 then "" else " ").
  assert (Hc : Nat.eqb (ch (advanceCursor c (p ++ Js.trim t1 ++ " "))) 0 = false).
  { apply Nat.eqb_neq. rewrite <- str_append_assoc. apply advanceCursor_space_ch. }
  rewrite Hc, advanceCursor_concat. reflexivity.
Qed.

Lemma insertFinal_consecutive_witness :
  insertFinalAtCursor (Some (mkCursor 0 3)) "hello " =
    [ReplaceRange " hello " (mkCursor 0 3); SetCursor (mkCursor 0 10)] /\
  Js.truthy (Js.trim " world") = true /\
  insertFinalAtCursor (Some (mkCursor 0 10)) " world" =
    [ReplaceRange (" " ++ Js.trim " world" ++ " ") (mkCursor 0 10);
     SetCursor (advanceCursor (mkCursor 0 3) (" hello " ++ " " ++ Js.trim " world" ++ " "))].
Proof.
  assert (H1 : insertFinalAtCursor (Some (mkCursor 0 3)) "hello " =
    [ReplaceRange " hello " (mkCursor 0 3); SetCursor (mkCursor 0 10)])
    by reflexivity.
  assert (H2 : Js.truthy (Js.trim " world") = true) by reflexivity.
  split; [exact H1|]. split; [exact H2|].
  exact (insertFinal_consecutive _ _ _ _ _ H1 H2).
Defined.

(** *** [trim] is idempotent *)

Lemma rev_str_app (a b : string) :
  Js.rev_str (a ++ b) = Js.rev_str b ++ Js.rev_str a.
Proof.
  induction a as [|c a IH]; simpl.
  - now rewrite str_append_nil_r.
  - rewrite IH. apply str_append_assoc.
Qed.

Lemma rev_str_involutive (s : string) : Js.rev_str (Js.rev_str s) = s.
Proof.
  induction s as [|c s IH]; simpl; [reflexivity|].
  rewrite rev_str_app, IH. reflexivity.
Qed.

Lemma trim_start_idem (s : string) :
  Js.trim_start (Js.trim_start s) = Js.trim_start s.
Proof.
  induction s as [|c s IH]; simpl; [reflexivity|].
  destruct (Js.is_ws c) eqn:E; [exact IH|]. simpl. now rewrite E.
Qed.

Lemma trim_start_split (s : string) : exists w, s = w ++ Js.trim_start s.
Proof.
  induction s as [|c s IH]; simpl; [now exists ""|].
  destruct (Js.is_ws c).
  - destruct IH as (w & Hw). exists (String c w). simpl. now f_equal.
  - now exists "".
Qed.

(** The string does not start with a character [trim] removes. *)
Definition head_ok (s : string) : Prop :=
  match s with EmptyString => True | String c _ => Js.is_ws c = false end.

Lemma trim_start_head (s : string) : head_ok (Js.trim_start s).
Proof.
  induction s as [|c s IH]; simpl; [exact I|].
  destruct (Js.is_ws c) eqn:E; [exact IH|]. exact E.
Qed.

Lemma trim_start_id (s : string) : head_ok s -> Js.trim_start s = s.
Proof. destruct s as [|c s]; simpl; [reflexivity|]. now intros ->. Qed.

Lemma trim_end_prefix (t : string) : exists u, t = Js.trim_end t ++ u.
Proof.
  destruct (trim_start_split (Js.rev_str t)) as (w & Hw).
  exists (Js.rev_str w). unfold Js.trim_end.
  rewrite <- rev_str_app, <- Hw, rev_str_involutive. reflexivity.
Qed.

Lemma trim_end_head (t : string) : head_ok t -> head_ok (Js.trim_end t).
Proof.
  destruct (trim_end_prefix t) as (u & Hu).
  destruct (Js.trim_end t) as [|c r]; [intros; exact I|].
  rewrite Hu. simpl. exact (fun H => H).
Qed.

Lemma trim_idem (s : string) : Js.trim (Js.trim s) = Js.trim s.
Proof.
  unfold Js.trim.
  pose proof (trim_start_head s) as H.
  set (t := Js.trim_start s) in *.
  rewrite (trim_start_id _ (trim_end_head t H)).
  unfold Js.trim_end. rewrite rev_str_involutive, trim_start_idem. reflexivity.
Qed.

(** Every [error] event the channel emits -- from a decoded message, from
    [ws.onclose] or from [ws.onerror] -- carries a non-empty message with
    no leading or trailing whitespace. *)
Theorem channel_errors_trimmed (formatTurns : bool) (parsed : option Channel.JVal)
    (reason m : string) :
  In (ErrorEv m)
     (app (Channel.handleMessage formatTurns parsed)
          (app (Channel.onClose reason) Channel.onError)) ->
  Js.truthy m = true /\ Js.trim m = m.
Proof.
  rewrite !in_app_iff. intros [H | [H | H]].
  - destruct parsed as [msg|]; [|contradiction].
    unfold Channel.handleMessage in H.
    destruct (Channel.is_str _ "Begin").
    { destruct H as [H|[]]; discriminate. }
    destruct (Channel.is_str _ "Turn").
    { destruct (Channel.field msg "transcript") as [[]|]; try contradiction.
      destruct (Nat.ltb _ _); [destruct H as [H|[]]; discriminate | contradiction]. }
    destruct (Channel.is_str _ "Termination").
    { destruct H as [H|[]]; discriminate. }
    destruct (if Channel.truthy (Channel.field msg "error") then _ else _)
      as [[]|]; try contradiction.
    destruct (Js.truthy (Js.trim s)) eqn:E; [|contradiction].
    destruct H as [H|[]]. injection H as <-. split; [exact E | apply trim_idem].
  - unfold Channel.onClose in H. rewrite in_app_iff in H.
    destruct (Js.truthy (Js.trim reason)) eqn:E;
      [| destruct H as [[] | [H|[]]]; discriminate].
    destruct H as [[H|[]] | [H|[]]]; [|discriminate].
    injection H as <-. split; [exact E | apply trim_idem].
  - destruct H as [H|[]]. injection H as <-. split; reflexivity.
Qed.

Lemma channel_errors_trimmed_witness :
  In (ErrorEv "boom")
     (app (Channel.handleMessage true
             (Some (Channel.JObj [("error", Channel.JStr " boom ")])))
          (app (Channel.onClose "") Channel.onError)) /\
  Js.truthy "boom" = true /\ Js.trim "boom" = "boom".
Proof.
  assert (H : In (ErrorEv "boom")
     (app (Channel.handleMessage true
             (Some (Channel.JObj [("error", Channel.JStr " boom ")])))
          (app (Channel.onClose "") Channel.onError)))
    by (left; reflexivity).
  split; [exact H|]. exact (channel_errors_trimmed _ _ _ _ H).
Defined.

(** Asking again to stream into the block that already owns the running
    live session is a no-op that reports success: the plugin is unchanged
    and nothing is output (no notice, no second session). *)
Theorem stream_owner_restart (p : Plugin.Plugin) (blockId : string)
    (target : Target) (apiKey : string) (config : Config)
    (cr mr cap : option string) :
  running (Plugin.live p) = true ->
  Plugin.recRecording p = false -> Plugin.recTranscribing p = false ->
  Plugin.streamRecordingBlockId p = Some blockId -> Js.truthy blockId = true ->
  Plugin.startRecordingForBlock p blockId Plugin.Stream target apiKey config
    cr mr cap = (true, p, []).
Proof.
  destruct p as [svc sb rr rt fb]; cbn [Plugin.live Plugin.recRecording
    Plugin.recTranscribing Plugin.streamRecordingBlockId].
  intros Hr -> -> -> Hb. unfold Plugin.startRecordingForBlock.
  cbn [Plugin.live Plugin.recRecording Plugin.recTranscribing
       Plugin.streamRecordingBlockId orb Plugin.activeId].
  rewrite Hr, Hb, String.eqb_refl. cbn [andb negb].
  assert (E : exec (start (Some target) apiKey config cr mr) svc = (svc, [])).
  { unfold start. run_m. rewrite Hr. reflexivity. }
  rewrite E, Hr. reflexivity.
Qed.

Lemma stream_owner_restart_witness :
  running (Plugin.live blockASession) = true /\
  Plugin.recRecording blockASession = false /\
  Plugin.recTranscribing blockASession = false /\
  Plugin.streamRecordingBlockId blockASession = Some "blockA" /\
  Js.truthy "blockA" = true /\
  Plugin.startRecordingForBlock blockASession "blockA" Plugin.Stream
    (mkTarget true true) "key" defaultConfig None None None =
    (true, blockASession, []).
Proof.
  assert (H1 : running (Plugin.live blockASession) = true) by reflexivity.
  assert (H2 : Plugin.recRecording blockASession = false) by reflexivity.
  assert (H3 : Plugin.recTranscribing blockASession = false) by reflexivity.
  assert (H4 : Plugin.streamRecordingBlockId blockASession = Some "blockA")
    by reflexivity.
  assert (H5 : Js.truthy "blockA" = true) by reflexivity.
  split; [exact H1|]. split; [exact H2|]. split; [exact H3|].
  split; [exact H4|]. split; [exact H5|].
  exact (stream_owner_restart blockASession "blockA" (mkTarget true true) "key"
           defaultConfig None None None H1 H2 H3 H4 H5).
Defined.

(** Asking again to record into the block that owns the running file
    recording fails with "Recording failed: Recorded transcription is
    already running." and, in the failure handler, forgets the owner: the
    recording goes on, and from then on any block passes the checks of
    [stopFileRecordingForBlock]. *)
Theorem file_owner_restart_drops_owner (p : Plugin.Plugin) (blockId : string)
    (apiKey : string) (capture : option string) :
  running (Plugin.live p) = false -> Plugin.recRecording p = true ->
  Plugin.fileRecordingBlockId p = Some blockId -> Js.truthy blockId = true ->
  let '(ok, p', o) := Plugin.startFileRecordingForBlock p blockId apiKey capture in
  ok = false /\
  o = [ONotice "Recording failed: Recorded transcription is already running."] /\
  Plugin.recRecording p' = true /\ Plugin.fileRecordingBlockId p' = None /\
  forall other, Plugin.stopFileRecordingCheck p' other = None.
Proof.
  destruct p as [svc sb rr rt fb]; cbn [Plugin.live Plugin.recRecording
    Plugin.fileRecordingBlockId].
  intros Hr -> -> Hb. unfold Plugin.startFileRecordingForBlock.
  cbn [Plugin.live Plugin.recRecording Plugin.recTranscribing
       Plugin.fileRecordingBlockId orb Plugin.activeId].
  rewrite Hr, Hb, String.eqb_refl. cbn [andb negb].
  unfold Plugin.recStartRecording. cbn [Plugin.recRecording orb].
  repeat split.
Qed.

Definition fileBlockASession : Plugin.Plugin :=
  Plugin.mkPlugin initService None true false (Some "blockA").

Lemma file_owner_restart_drops_owner_witness :
  running (Plugin.live fileBlockASession) = false /\
  Plugin.recRecording fileBlockASession = true /\
  Plugin.fileRecordingBlockId fileBlockASession = Some "blockA" /\
  Js.truthy "blockA" = true /\
  let '(ok, p', o) :=
    Plugin.startFileRecordingForBlock fileBlockASession "blockA" "key" None in
  ok = false /\
  o = [ONotice "Recording failed: Recorded transcription is already running."] /\
  Plugin.recRecording p' = true /\ Plugin.fileRecordingBlockId p' = None /\
  forall other, Plugin.stopFileRecordingCheck p' other = None.
Proof.
  assert (H1 : running (Plugin.live fileBlockASession) = false) by reflexivity.
  assert (H2 : Plugin.recRecording fileBlockASession = true) by reflexivity.
  assert (H3 : Plugin.fileRecordingBlockId fileBlockASession = Some "blockA")
    by reflexivity.
  assert (H4 : Js.truthy "blockA" = true) by reflexivity.
  split; [exact H1|]. split; [exact H2|]. split; [exact H3|]. split; [exact H4|].
  exact (file_owner_restart_drops_owner fileBlockASession "blockA" "key" None
           H1 H2 H3 H4).
Defined.
